(** * prly.fn: the parlay pricing and risk engine of [src/App.js]

    The pricing functions ([calculateTimeScaledVolatility],
    [calculateWinProbability], [calculatePayoutOdds], [isRangeValid]) and the
    handlers of the [ParlayBuilder] component ([addLeg], [removeLeg],
    [getCombinedProb], [getCombinedPayout], [placeBet]) are embedded as
    functions over an explicit component state.

    JavaScript numbers are modelled as exact reals extended with the three
    special values of IEEE 754 ([+Infinity], [-Infinity], [NaN]).  The
    special values follow the IEEE rules the source relies on (a division by
    zero gives an infinity or [NaN], every comparison with [NaN] is false).
    [Math.tanh] is exactly 1 or -1 from an argument of magnitude 22 on, as it
    is in binary64; otherwise rounding, overflow and the sign of zero are not
    modelled. *)

From Stdlib Require Import Reals Lra Lia ZArith List String Bool.
Import ListNotations.

Local Open Scope R_scope.

(** ** Numbers *)

Module JS.

Inductive num : Type :=
| Fin (r : R)
| PInf
| NInf
| NaN.

Definition Rltb (x y : R) : bool := if Rlt_dec x y then true else false.
Definition Rleb (x y : R) : bool := if Rle_dec x y then true else false.

(** [signed x pos zero neg] selects by the sign of [x]. *)
Definition signed {A : Type} (x : R) (pos zero neg : A) : A :=
  match total_order_T x 0 with
  | inleft (left _) => neg
  | inleft (right _) => zero
  | inright _ => pos
  end.

Definition neg (a : num) : num :=
  match a with
  | Fin x => Fin (- x)
  | PInf => NInf
  | NInf => PInf
  | NaN => NaN
  end.

Definition add (a b : num) : num :=
  match a, b with
  | NaN, _ | _, NaN => NaN
  | Fin x, Fin y => Fin (x + y)
  | PInf, NInf | NInf, PInf => NaN
  | PInf, _ | _, PInf => PInf
  | NInf, _ | _, NInf => NInf
  end.

Definition sub (a b : num) : num := add a (neg b).

Definition mul (a b : num) : num :=
  match a, b with
  | NaN, _ | _, NaN => NaN
  | Fin x, Fin y => Fin (x * y)
  | PInf, Fin y | Fin y, PInf => signed y PInf NaN NInf
  | NInf, Fin y | Fin y, NInf => signed y NInf NaN PInf
  | PInf, PInf | NInf, NInf => PInf
  | PInf, NInf | NInf, PInf => NInf
  end.

(** A zero divisor is the positive zero: the quotient takes the sign of the
    dividend, and [0 / 0] is [NaN]. *)
Definition div (a b : num) : num :=
  match a, b with
  | NaN, _ | _, NaN => NaN
  | Fin x, Fin y =>
      if Req_dec_T y 0 then signed x PInf NaN NInf else Fin (x / y)
  | Fin _, PInf | Fin _, NInf => Fin 0
  | PInf, Fin y => if Rlt_dec y 0 then NInf else PInf
  | NInf, Fin y => if Rlt_dec y 0 then PInf else NInf
  | PInf, PInf | PInf, NInf | NInf, PInf | NInf, NInf => NaN
  end.

Definition ltb (a b : num) : bool :=
  match a, b with
  | Fin x, Fin y => Rltb x y
  | NInf, Fin _ | NInf, PInf | Fin _, PInf => true
  | _, _ => false
  end.

Definition leb (a b : num) : bool :=
  match a, b with
  | NaN, _ | _, NaN => false
  | Fin x, Fin y => Rleb x y
  | NInf, _ | _, PInf => true
  | _, _ => false
  end.

Definition gtb (a b : num) : bool := ltb b a.
Definition geb (a b : num) : bool := leb b a.

Definition of_nat (n : nat) : num := Fin (INR n).

End JS.

Export JS (num, Fin, PInf, NInf, NaN).

Declare Scope js_scope.
Delimit Scope js_scope with js.
Bind Scope js_scope with JS.num.
Infix "+" := JS.add : js_scope.
Infix "-" := JS.sub : js_scope.
Infix "*" := JS.mul : js_scope.
Infix "/" := JS.div : js_scope.
Infix "<?" := JS.ltb (at level 70, no associativity) : js_scope.
Infix "<=?" := JS.leb (at level 70, no associativity) : js_scope.
Infix ">?" := JS.gtb (at level 70, no associativity) : js_scope.
Infix ">=?" := JS.geb (at level 70, no associativity) : js_scope.

(** ** The [Math] object *)

Module Math.

Definition PI : num := Fin Rtrigo1.PI.

Definition sqrt (a : num) : num :=
  match a with
  | Fin x => if Rlt_dec x 0 then NaN else Fin (R_sqrt.sqrt x)
  | PInf => PInf
  | NInf | NaN => NaN
  end.

(** The hyperbolic tangent as a binary64 implementation returns it far from
    0: from [|x| >= 22] the true value is within [2 * exp (-44)] of 1 or -1,
    far below half a unit in the last place, and the result is exactly 1 or
    -1 (the fdlibm code that JavaScript engines use has this very branch).
    Nearer 0 the value is the real one. *)
Definition tanh_sat (x : R) : R :=
  if Rle_dec 22 x then 1
  else if Rle_dec x (-22) then -1
  else Rtrigo_def.tanh x.

Definition tanh (a : num) : num :=
  match a with
  | Fin x => Fin (tanh_sat x)
  | PInf => Fin 1
  | NInf => Fin (-1)
  | NaN => NaN
  end.

(** [Math.min] of two arguments: [NaN] when either is. *)
Definition min (a b : num) : num :=
  match a, b with
  | NaN, _ | _, NaN => NaN
  | _, _ => if JS.ltb a b then a else b
  end.

Definition is_integer (e : R) : bool :=
  if Req_dec_T (IZR (Int_part e)) e then true else false.

Definition is_odd_integer (e : R) : bool :=
  is_integer e && Z.odd (Int_part e).

(** [Math.pow base exponent], case by case as ECMAScript's
    Number::exponentiate lists them. *)
Definition pow (base exponent : num) : num :=
  match exponent with
  | NaN => NaN
  | Fin e =>
      if Req_dec_T e 0 then Fin 1 else
      match base with
      | NaN => NaN
      | PInf => if Rlt_dec 0 e then PInf else Fin 0
      | NInf =>
          if Rlt_dec 0 e
          then (if is_odd_integer e then NInf else PInf)
          else Fin 0
      | Fin b =>
          JS.signed b
            (Fin (Rpower b e))
            (if Rlt_dec 0 e then Fin 0 else PInf)
            (if is_integer e then Fin (powerRZ b (Int_part e)) else NaN)
      end
  | PInf =>
      match base with
      | NaN => NaN
      | PInf | NInf => PInf
      | Fin b =>
          if Rlt_dec 1 (Rabs b) then PInf
          else if Req_dec_T (Rabs b) 1 then NaN else Fin 0
      end
  | NInf =>
      match base with
      | NaN => NaN
      | PInf | NInf => Fin 0
      | Fin b =>
          if Rlt_dec 1 (Rabs b) then Fin 0
          else if Req_dec_T (Rabs b) 1 then NaN else PInf
      end
  end.

End Math.

(** ** [Number.prototype.toFixed] and the values a ticket stores *)

(** The text [toFixed] produces is kept symbolic: [Fixed negative n f] is the
    decimal string made of an optional minus sign and the digits of [n] with
    the point before the last [f] of them (so its value is [n / 10^f]);
    [NumberToString x] is the text of [x] itself, which [toFixed] falls back
    to for non-finite numbers and for magnitudes from [10^21] on. *)
Inductive text : Type :=
| Fixed (negative : bool) (n : Z) (f : nat)
| NumberToString (x : num).

Definition toFixed (a : num) (fractionDigits : nat) : text :=
  match a with
  | Fin x =>
      let s := JS.Rltb x 0 in
      let x := Rabs x in
      if JS.Rleb (10 ^ 21) x then NumberToString a
      else Fixed s (Int_part (x * 10 ^ fractionDigits + / 2)) fractionDigits
  | _ => NumberToString a
  end.

(** A JavaScript value that is a number or a string. *)
Inductive value : Type :=
| VNumber (x : num)
| VString (s : text).

(** [Number(v)]: the number a value reads as. *)
Definition toNumber (v : value) : num :=
  match v with
  | VNumber x => x
  | VString (Fixed negative n f) =>
      Fin ((if negative then -1 else 1) * (IZR n / 10 ^ f))
  | VString (NumberToString x) => x
  end.

(** ** Static registries and constants *)

Inductive Asset := BTC | ETH | SOL | LINK | DOGE.

Record AssetInfo := { name : string; symbol : string; volatility : num }.

Definition ASSETS (assetKey : Asset) : AssetInfo :=
  match assetKey with
  | BTC => {| name := "Bitcoin"; symbol := "bitcoin"; volatility := Fin 0.02 |}
  | ETH => {| name := "Ethereum"; symbol := "ethereum"; volatility := Fin 0.025 |}
  | SOL => {| name := "Solana"; symbol := "solana"; volatility := Fin 0.035 |}
  | LINK => {| name := "Chainlink"; symbol := "chainlink"; volatility := Fin 0.04 |}
  | DOGE => {| name := "Dogecoin"; symbol := "dogecoin"; volatility := Fin 0.06 |}
  end.

Inductive Timeframe :=
| tf_1_hour | tf_4_hour | tf_24_hour | tf_48_hour
| tf_3_day | tf_7_day | tf_14_day | tf_30_day.

Definition TIMEFRAMES (tf : Timeframe) : num :=
  match tf with
  | tf_1_hour => Fin 1
  | tf_4_hour => Fin 4
  | tf_24_hour => Fin 24
  | tf_48_hour => Fin 48
  | tf_3_day => Fin 72
  | tf_7_day => Fin 168
  | tf_14_day => Fin 336
  | tf_30_day => Fin 720
  end.

Module RANGE_LIMITS.
Definition narrow : num := Fin 0.01.
Definition wide : num := Fin 0.30.
End RANGE_LIMITS.

Definition TREASURY_SIZE : num := Fin 20000.
Definition MAX_PAYOUT_PERCENTAGE : num := Fin 0.10.

(** ** Pricing functions *)

Definition calculateTimeScaledVolatility
    (assetKey : Asset) (timeframeHours price : num) : num :=
  let vol := volatility (ASSETS assetKey) in
  let multiplier :=
    if (timeframeHours <=? Fin 1)%js then Fin 1.3
    else if (timeframeHours <=? Fin 4)%js then Fin 1.2
    else if (timeframeHours <=? Fin 24)%js then Fin 1.1
    else Fin 1.0 in
  (vol * Math.sqrt (timeframeHours / Fin 24) * multiplier)%js.

Definition normalCDF (z : num) : num :=
  (Fin 0.5 * (Fin 1 + Math.tanh (Math.sqrt (Math.PI / Fin 8) * z)))%js.

Definition calculateWinProbability
    (assetKey : Asset) (lowerBound upperBound timeframeHours price : num) : num :=
  let stdDev :=
    (price * calculateTimeScaledVolatility assetKey timeframeHours price)%js in
  let z1 := ((lowerBound - price) / stdDev)%js in
  let z2 := ((upperBound - price) / stdDev)%js in
  let probability := (normalCDF z2 - normalCDF z1)%js in
  Math.min probability (Fin 0.25).

(** The default of the [houseEdge] parameter, used where the source calls
    [calculatePayoutOdds] with one argument. *)
Definition DEFAULT_HOUSE_EDGE : num := Fin 0.07.

Definition calculatePayoutOdds (probability houseEdge : num) : num :=
  ((Fin 1 / probability) * (Fin 1 - houseEdge))%js.

Definition isRangeValid (lowerBound upperBound price : num) : bool :=
  let width := ((upperBound - lowerBound) / price)%js in
  (width >=? RANGE_LIMITS.narrow)%js && (width <=? RANGE_LIMITS.wide)%js.

(** ** Component state *)

Module Leg.
Record t := mk {
  asset : Asset;
  timeframe : Timeframe;
  lowerBound : num;
  upperBound : num;
  probability : num;
  payoutOdds : num
}.
End Leg.

Module Ticket.
Record t := mk {
  id : Z;
  legs : list Leg.t;
  betAmount : num;
  timestamp : string;
  result : string;
  combinedPayout : value
}.
End Ticket.

(** The [useState] cells of [ParlayBuilder]. *)
Record State := mkState {
  legs : list Leg.t;
  selectedAsset : Asset;
  timeframe : Timeframe;
  lowerBound : num;
  upperBound : num;
  betAmount : num;
  history : list Ticket.t;
  error : string;
  livePrice : num
}.

Definition initialState : State :=
  {| legs := [];
     selectedAsset := BTC;
     timeframe := tf_24_hour;
     lowerBound := Fin 0;
     upperBound := Fin 0;
     betAmount := Fin 100;
     history := [];
     error := "";
     livePrice := Fin 0 |}.

Definition setLegs (v : list Leg.t) (s : State) : State :=
  mkState v (selectedAsset s) (timeframe s) (lowerBound s) (upperBound s)
          (betAmount s) (history s) (error s) (livePrice s).

Definition setHistory (v : list Ticket.t) (s : State) : State :=
  mkState (legs s) (selectedAsset s) (timeframe s) (lowerBound s) (upperBound s)
          (betAmount s) v (error s) (livePrice s).

Definition setError (v : string) (s : State) : State :=
  mkState (legs s) (selectedAsset s) (timeframe s) (lowerBound s) (upperBound s)
          (betAmount s) (history s) v (livePrice s).

Definition setSelectedAsset (v : Asset) (s : State) : State :=
  mkState (legs s) v (timeframe s) (lowerBound s) (upperBound s)
          (betAmount s) (history s) (error s) (livePrice s).

Definition setTimeframe (v : Timeframe) (s : State) : State :=
  mkState (legs s) (selectedAsset s) v (lowerBound s) (upperBound s)
          (betAmount s) (history s) (error s) (livePrice s).

Definition setLowerBound (v : num) (s : State) : State :=
  mkState (legs s) (selectedAsset s) (timeframe s) v (upperBound s)
          (betAmount s) (history s) (error s) (livePrice s).

Definition setUpperBound (v : num) (s : State) : State :=
  mkState (legs s) (selectedAsset s) (timeframe s) (lowerBound s) v
          (betAmount s) (history s) (error s) (livePrice s).

Definition setBetAmount (v : num) (s : State) : State :=
  mkState (legs s) (selectedAsset s) (timeframe s) (lowerBound s) (upperBound s)
          v (history s) (error s) (livePrice s).

Definition setLivePrice (v : num) (s : State) : State :=
  mkState (legs s) (selectedAsset s) (timeframe s) (lowerBound s) (upperBound s)
          (betAmount s) (history s) (error s) v.

(** ** Handlers *)

Definition RANGE_ERROR : string :=
  "Range width must be between 1% and 30% of the current asset price.".
Definition EMPTY_PARLAY_ERROR : string :=
  "You must add at least one leg to your parlay.".
Definition PROBABILITY_CAP_ERROR : string :=
  "Combined probability exceeds 25% maximum win cap.".
Definition EXPOSURE_CAP_ERROR : string :=
  "Potential payout exceeds maximum treasury exposure.".

(** [addLeg], with the probability engine it calls as a parameter. *)
Definition addLegWith
    (winProbability : Asset -> num -> num -> num -> num -> num)
    (s : State) : State :=
  if negb (isRangeValid (lowerBound s) (upperBound s) (livePrice s)) then
    setError RANGE_ERROR s
  else
    let s1 := setError "" s in
    let timeframeHours := TIMEFRAMES (timeframe s) in
    let probability :=
      winProbability (selectedAsset s) (lowerBound s) (upperBound s)
                     timeframeHours (livePrice s) in
    let payoutOdds := calculatePayoutOdds probability DEFAULT_HOUSE_EDGE in
    setLegs (legs s ++ [Leg.mk (selectedAsset s) (timeframe s) (lowerBound s)
                               (upperBound s) probability payoutOdds]) s1.

Definition addLeg : State -> State := addLegWith calculateWinProbability.

(** [legs.filter((_, i) => i !== index)] *)
Fixpoint filter_index {A : Type} (keep : nat -> bool) (i : nat) (l : list A)
  : list A :=
  match l with
  | [] => []
  | x :: l' =>
      if keep i then x :: filter_index keep (S i) l'
      else filter_index keep (S i) l'
  end.

Definition removeLeg (index : nat) (s : State) : State :=
  setLegs (filter_index (fun i => negb (Nat.eqb i index)) 0 (legs s)) s.

Definition getCombinedProb (s : State) : num :=
  if Nat.eqb (List.length (legs s)) 0 then Fin 0 else
  let base :=
    fold_left (fun acc leg => (acc * Leg.probability leg)%js) (legs s) (Fin 1) in
  let avgCorrelationFactor := Fin 0.85 in
  let bonus :=
    if Nat.eqb (List.length (legs s)) 2 then Fin 1.3
    else if Nat.eqb (List.length (legs s)) 3 then Fin 1.5
    else Fin 1.0 in
  (Math.pow base (Fin 1 / JS.of_nat (List.length (legs s)))
   * avgCorrelationFactor * bonus)%js.

Definition getCombinedPayout (s : State) : value :=
  let combinedProb := getCombinedProb s in
  if (combinedProb >? Fin 0)%js
  then VString (toFixed (calculatePayoutOdds (Math.min combinedProb (Fin 0.25))
                                             DEFAULT_HOUSE_EDGE) 2)
  else VNumber (Fin 0).

(** [placeBet]; [now] is what [Date.now()] returns and [iso] what
    [new Date().toISOString()] returns when the ticket is built. *)
Definition placeBet (now : Z) (iso : string) (s : State) : State :=
  if Nat.eqb (List.length (legs s)) 0 then setError EMPTY_PARLAY_ERROR s else
  let finalProb := getCombinedProb s in
  if (finalProb >? Fin 0.25)%js then setError PROBABILITY_CAP_ERROR s else
  let payoutOdds := calculatePayoutOdds finalProb DEFAULT_HOUSE_EDGE in
  let potentialPayout := (betAmount s * payoutOdds)%js in
  if (potentialPayout >? TREASURY_SIZE * MAX_PAYOUT_PERCENTAGE)%js
  then setError EXPOSURE_CAP_ERROR s else
  let s1 := setError "" s in
  let newTicket :=
    Ticket.mk now (legs s) (betAmount s) iso "pending" (getCombinedPayout s) in
  setLegs [] (setHistory (newTicket :: history s) s1).

(** [livePotentialPayout], as the [useMemo] computes it. *)
Definition livePotentialPayout (s : State) : num :=
  let prob := getCombinedProb s in
  (betAmount s * calculatePayoutOdds (Math.min prob (Fin 0.25))
                                     DEFAULT_HOUSE_EDGE)%js.

(** What can happen to the component: the inputs' [onChange] handlers, the
    price effect, and the three buttons. *)
Inductive Event : Type :=
| SelectAsset (a : Asset)
| SelectTimeframe (tf : Timeframe)
| InputLowerBound (x : num)
| InputUpperBound (x : num)
| InputBetAmount (x : num)
| PriceFetched (x : num)
| ClickAddLeg
| ClickRemove (index : nat)
| ClickPlaceBet (now : Z) (iso : string).

Definition step (s : State) (e : Event) : State :=
  match e with
  | SelectAsset a => setSelectedAsset a s
  | SelectTimeframe tf => setTimeframe tf s
  | InputLowerBound x => setLowerBound x s
  | InputUpperBound x => setUpperBound x s
  | InputBetAmount x => setBetAmount x s
  | PriceFetched x => setLivePrice x s
  | ClickAddLeg => addLeg s
  | ClickRemove index => removeLeg index s
  | ClickPlaceBet now iso => placeBet now iso s
  end.

Definition run (events : list Event) : State := fold_left step events initialState.

(** ** Vocabulary of the statements *)

(** The ticket an accepted submission records. *)
Definition newTicket (now : Z) (iso : string) (s : State) : Ticket.t :=
  Ticket.mk now (legs s) (betAmount s) iso "pending" (getCombinedPayout s).

(** [getCombinedProb] reads nothing of the state but [legs]; this is the
    function of the leg sequence it computes. *)
Definition combinedProbability (parlay : list Leg.t) : num :=
  getCombinedProb (setLegs parlay initialState).

Definition combinedOdds (parlay : list Leg.t) : value :=
  getCombinedPayout (setLegs parlay initialState).

Definition product (ps : list R) : R := fold_right Rmult 1 ps.

Definition bonus (n : nat) : R :=
  match n with
  | 2%nat => 1.3
  | 3%nat => 1.5
  | _ => 1.0
  end.

(** [leg] is the leg [addLeg] builds in state [s], and [s] passes the range
    validator. *)
Definition built_in (s : State) (leg : Leg.t) : Prop :=
  isRangeValid (lowerBound s) (upperBound s) (livePrice s) = true /\
  Leg.lowerBound leg = lowerBound s /\
  Leg.upperBound leg = upperBound s /\
  Leg.probability leg =
    calculateWinProbability (selectedAsset s) (lowerBound s) (upperBound s)
                            (TIMEFRAMES (timeframe s)) (livePrice s).

(** Some click on "Add to Parlay" during [events] built [leg]. *)
Definition created_during (events : list Event) (leg : Leg.t) : Prop :=
  exists pre post, events = pre ++ ClickAddLeg :: post /\ built_in (run pre) leg.

Definition within_leg_cap (leg : Leg.t) : Prop :=
  exists p : R, Leg.probability leg = Fin p /\ 0 < p <= 0.25.

(** The leg that [addLeg] prices at the 0.25 cap: Bitcoin over 24 hours
    between 49500 and 50500. *)
Definition capped_leg : Leg.t :=
  Leg.mk BTC tf_24_hour (Fin 49500) (Fin 50500) (Fin 0.25)
         (calculatePayoutOdds (Fin 0.25) DEFAULT_HOUSE_EDGE).

(** The clicks that build that leg: the price arrives, the bounds are typed,
    "Add to Parlay" is pressed. *)
Definition reference_events : list Event :=
  [PriceFetched (Fin 50000); InputLowerBound (Fin 49500);
   InputUpperBound (Fin 50500); ClickAddLeg].

(** The state they lead to: [capped_leg] is the whole parlay and the stake
    is the default 100. *)
Definition one_leg_state : State := run reference_events.

(** The same with a stake of -100 typed in. *)
Definition negative_stake_state : State :=
  run (reference_events ++ [InputBetAmount (Fin (-100))]).

(** ** Display values *)

(** [!x] on a number: true for 0 and for [NaN]. *)
Definition isFalsy (a : num) : bool :=
  match a with
  | Fin x => if Req_dec_T x 0 then true else false
  | NaN => true
  | PInf | NInf => false
  end.

(** [x === 0] on a number. *)
Definition isZero (a : num) : bool :=
  match a with
  | Fin x => if Req_dec_T x 0 then true else false
  | _ => false
  end.

(** [selectedRangePercent]: [None] is [null]. *)
Definition selectedRangePercent (s : State) : option text :=
  if isFalsy (lowerBound s) || isFalsy (upperBound s)
     || (upperBound s <=? lowerBound s)%js || isZero (livePrice s)
  then None
  else
    let range := ((upperBound s - lowerBound s) / livePrice s * Fin 100)%js in
    Some (toFixed range 2).

(** [liveCombinedProbability], as the [useMemo] computes it. *)
Definition liveCombinedProbability (s : State) : num := getCombinedProb s.

(** The registry timeframes by their number of hours. *)
Definition hours (tf : Timeframe) : R :=
  match tf with
  | tf_1_hour => 1
  | tf_4_hour => 4
  | tf_24_hour => 24
  | tf_48_hour => 48
  | tf_3_day => 72
  | tf_7_day => 168
  | tf_14_day => 336
  | tf_30_day => 720
  end.

(** What every ticket of the ledger satisfied when it was recorded. *)
Definition ticket_passed_gates (t : Ticket.t) : Prop :=
  Ticket.legs t <> [] /\
  (combinedProbability (Ticket.legs t) >? Fin 0.25)%js = false /\
  (Ticket.betAmount t
   * calculatePayoutOdds (combinedProbability (Ticket.legs t)) DEFAULT_HOUSE_EDGE
   >? TREASURY_SIZE * MAX_PAYOUT_PERCENTAGE)%js = false /\
  Ticket.result t = "pending"%string /\
  Ticket.combinedPayout t = combinedOdds (Ticket.legs t).

(** A leg as [addLeg] leaves it: odds derived from the probability, and the
    probability not above the cap. *)
Definition leg_priced (leg : Leg.t) : Prop :=
  Leg.payoutOdds leg = calculatePayoutOdds (Leg.probability leg) DEFAULT_HOUSE_EDGE /\
  (Leg.probability leg >? Fin 0.25)%js = false.

(** The probability of the range before the cap, on real inputs: the
    difference of the two CDF values for a standard deviation [sd]. *)
Definition rawProbability (sd l u p : R) : R :=
  0.5 * (1 + Math.tanh_sat (sqrt (PI / 8) * ((u - p) / sd)))
  - 0.5 * (1 + Math.tanh_sat (sqrt (PI / 8) * ((l - p) / sd))).

(** Clicks on the Place Bet button. *)
Definition isPlaceBet (e : Event) : bool :=
  match e with ClickPlaceBet _ _ => true | _ => false end.

(** The outcome of the [fetchPrice] effect: the price of the response, or 0
    when the request or the reading of the response throws ([None]). *)
Definition fetchPrice (response : option num) (s : State) : State :=
  match response with
  | Some usd => setLivePrice usd s
  | None => setLivePrice (Fin 0) s
  end.

Definition isPriceFetched (e : Event) : bool :=
  match e with PriceFetched _ => true | _ => false end.

(** * Properties *)

(** ** Comparisons and arithmetic on finite numbers *)

Lemma Rltb_true (x y : R) : JS.Rltb x y = true <-> x < y.
Proof. unfold JS.Rltb. destruct (Rlt_dec x y); split; intros; auto; discriminate. Qed.

Lemma Rltb_false (x y : R) : JS.Rltb x y = false <-> y <= x.
Proof.
  unfold JS.Rltb. destruct (Rlt_dec x y); split; intros; auto; try discriminate; lra.
Qed.

Lemma Rleb_true (x y : R) : JS.Rleb x y = true <-> x <= y.
Proof. unfold JS.Rleb. destruct (Rle_dec x y); split; intros; auto; discriminate. Qed.

Lemma Rleb_false (x y : R) : JS.Rleb x y = false <-> y < x.
Proof.
  unfold JS.Rleb. destruct (Rle_dec x y); split; intros; auto; try discriminate; lra.
Qed.

Lemma gtb_Fin_true (x y : R) : (Fin x >? Fin y)%js = true <-> y < x.
Proof. apply Rltb_true. Qed.

Lemma gtb_Fin_false (x y : R) : (Fin x >? Fin y)%js = false <-> x <= y.
Proof. apply Rltb_false. Qed.

Lemma leb_Fin_true (x y : R) : (Fin x <=? Fin y)%js = true <-> x <= y.
Proof. apply Rleb_true. Qed.

Lemma leb_Fin_false (x y : R) : (Fin x <=? Fin y)%js = false <-> y < x.
Proof. apply Rleb_false. Qed.

Lemma geb_Fin_true (x y : R) : (Fin x >=? Fin y)%js = true <-> y <= x.
Proof. apply Rleb_true. Qed.

Lemma div_Fin (x y : R) : y <> 0 -> (Fin x / Fin y)%js = Fin (x / y).
Proof. intros Hy. simpl. destruct (Req_dec_T y 0); [contradiction | reflexivity]. Qed.

Lemma signed_pos {A : Type} (x : R) (p z n : A) : 0 < x -> JS.signed x p z n = p.
Proof.
  intros Hx. unfold JS.signed.
  destruct (total_order_T x 0) as [[H | H] | H]; try reflexivity; lra.
Qed.

Lemma signed_zero {A : Type} (p z n : A) : JS.signed 0 p z n = z.
Proof.
  unfold JS.signed.
  destruct (total_order_T 0 0) as [[H | H] | H]; try reflexivity; lra.
Qed.

Lemma signed_neg {A : Type} (x : R) (p z n : A) : x < 0 -> JS.signed x p z n = n.
Proof.
  intros Hx. unfold JS.signed.
  destruct (total_order_T x 0) as [[H | H] | H]; try reflexivity; lra.
Qed.

(** Dividing by zero never gives a finite number. *)
Lemma div_zero_not_finite (a : num) :
  (a / Fin 0)%js = PInf \/ (a / Fin 0)%js = NInf \/ (a / Fin 0)%js = NaN.
Proof.
  destruct a as [x | | |]; simpl.
  - destruct (Req_dec_T 0 0) as [_ | H]; [| lra].
    unfold JS.signed.
    destruct (total_order_T x 0) as [[H | H] | H]; auto.
  - destruct (Rlt_dec 0 0); [lra | auto].
  - destruct (Rlt_dec 0 0); [lra | auto].
  - auto.
Qed.

Lemma calculatePayoutOdds_Fin (p e : R) :
  p <> 0 ->
  calculatePayoutOdds (Fin p) (Fin e) = Fin (1 / p * (1 - e)).
Proof.
  intros Hp. unfold calculatePayoutOdds. rewrite (div_Fin 1 p Hp). reflexivity.
Qed.

Lemma min_Fin_le (x y : R) : x <= y -> Math.min (Fin x) (Fin y) = Fin x.
Proof.
  intros H. unfold Math.min, JS.ltb, JS.Rltb.
  destruct (Rlt_dec x y); [reflexivity | f_equal; lra].
Qed.

Lemma min_Fin_ge (x y : R) : y <= x -> Math.min (Fin x) (Fin y) = Fin y.
Proof.
  intros H. unfold Math.min, JS.ltb, JS.Rltb.
  destruct (Rlt_dec x y); [lra | reflexivity].
Qed.

(** ** The range validator *)

Lemma isRangeValid_spec (lowerBound upperBound price : num) :
  isRangeValid lowerBound upperBound price = true <->
  exists w : R,
    ((upperBound - lowerBound) / price)%js = Fin w /\ 0.01 <= w <= 0.30.
Proof.
  unfold isRangeValid, RANGE_LIMITS.narrow, RANGE_LIMITS.wide.
  destruct ((upperBound - lowerBound) / price)%js as [w | | |]; simpl.
  - rewrite andb_true_iff, !Rleb_true. split.
    + intros [H1 H2]. exists w. split; [reflexivity | lra].
    + intros [w' [Hw H]]. injection Hw as ->. lra.
  - split; [discriminate | intros [w [Hw _]]; discriminate].
  - split; [discriminate | intros [w [Hw _]]; discriminate].
  - split; [discriminate | intros [w [Hw _]]; discriminate].
Qed.

Lemma isRangeValid_price_zero (lowerBound upperBound : num) :
  isRangeValid lowerBound upperBound (Fin 0) = false.
Proof.
  destruct (isRangeValid lowerBound upperBound (Fin 0)) eqn:E; [| reflexivity].
  apply isRangeValid_spec in E. destruct E as [w [Hw _]].
  destruct (div_zero_not_finite (upperBound - lowerBound)) as [H | [H | H]];
    rewrite H in Hw; discriminate.
Qed.

(** ** Projections of the handlers *)

Lemma addLegWith_rejected engine (s : State) :
  isRangeValid (lowerBound s) (upperBound s) (livePrice s) = false ->
  addLegWith engine s = setError RANGE_ERROR s.
Proof. intros H. unfold addLegWith. rewrite H. reflexivity. Qed.

Lemma addLeg_accepted (s : State) :
  isRangeValid (lowerBound s) (upperBound s) (livePrice s) = true ->
  addLeg s =
  setLegs (legs s ++
           [Leg.mk (selectedAsset s) (timeframe s) (lowerBound s) (upperBound s)
              (calculateWinProbability (selectedAsset s) (lowerBound s)
                 (upperBound s) (TIMEFRAMES (timeframe s)) (livePrice s))
              (calculatePayoutOdds
                 (calculateWinProbability (selectedAsset s) (lowerBound s)
                    (upperBound s) (TIMEFRAMES (timeframe s)) (livePrice s))
                 DEFAULT_HOUSE_EDGE)])
          (setError "" s).
Proof. intros H. unfold addLeg, addLegWith. rewrite H. reflexivity. Qed.

(** C7: with a live price of 0 [addLeg] rejects whatever the bounds are, and
    does so before the probability engine is consulted: the outcome is the
    range error on an otherwise unchanged state for every engine that could
    be plugged in, so the division by a zero standard deviation is never
    reached from the leg-building path. *)
Theorem addLeg_refuses_zero_price :
  forall (s : State) (engine : Asset -> num -> num -> num -> num -> num),
    livePrice s = Fin 0 ->
    addLegWith engine s = setError RANGE_ERROR s /\
    addLeg s = setError RANGE_ERROR s /\
    legs (addLeg s) = legs s.
Proof.
  intros s engine Hp.
  assert (Hv : isRangeValid (lowerBound s) (upperBound s) (livePrice s) = false)
    by (rewrite Hp; apply isRangeValid_price_zero).
  repeat split.
  - apply addLegWith_rejected, Hv.
  - apply addLegWith_rejected, Hv.
  - unfold addLeg. rewrite (addLegWith_rejected _ _ Hv). reflexivity.
Qed.

Lemma addLeg_refuses_zero_price_witness :
  livePrice (setUpperBound (Fin 101) (setLowerBound (Fin 99) initialState)) = Fin 0 /\
  addLeg (setUpperBound (Fin 101) (setLowerBound (Fin 99) initialState)) =
  setError RANGE_ERROR (setUpperBound (Fin 101) (setLowerBound (Fin 99) initialState)).
Proof.
  split; [reflexivity |].
  apply (addLeg_refuses_zero_price
           (setUpperBound (Fin 101) (setLowerBound (Fin 99) initialState))
           calculateWinProbability).
  reflexivity.
Defined.

(** ** The probability engine *)

Lemma tanh_exp (x : R) : Rtrigo_def.tanh x = 1 - 2 / (exp (2 * x) + 1).
Proof.
  unfold Rtrigo_def.tanh, sinh, cosh.
  replace (2 * x) with (x + x) by lra.
  rewrite exp_plus, exp_Ropp.
  pose proof (exp_pos x) as Hx.
  field. split; [nra | lra].
Qed.

Lemma tanh_increasing (x y : R) :
  x < y -> Rtrigo_def.tanh x < Rtrigo_def.tanh y.
Proof.
  intros Hxy. rewrite !tanh_exp.
  pose proof (exp_pos (2 * x)) as Hx.
  assert (He : exp (2 * x) < exp (2 * y)) by (apply exp_increasing; lra).
  assert (Hinv : / (exp (2 * y) + 1) < / (exp (2 * x) + 1)).
  { apply Rinv_lt_contravar; [apply Rmult_lt_0_compat; lra | lra]. }
  unfold Rdiv. lra.
Qed.

Lemma tanh_monotone (x y : R) :
  x <= y -> Rtrigo_def.tanh x <= Rtrigo_def.tanh y.
Proof.
  intros [H | ->]; [left; apply tanh_increasing, H | right; reflexivity].
Qed.

Lemma tanh_bounds (x : R) : -1 < Rtrigo_def.tanh x < 1.
Proof.
  rewrite tanh_exp. pose proof (exp_pos (2 * x)) as He.
  assert (Hi : 0 < / (exp (2 * x) + 1)) by (apply Rinv_0_lt_compat; lra).
  assert (Hi1 : / (exp (2 * x) + 1) < 1).
  { rewrite <- Rinv_1 at 2. apply Rinv_lt_contravar; lra. }
  unfold Rdiv. lra.
Qed.


Lemma sqrt_PI_8_pos : 0 < sqrt (PI / 8).
Proof. apply sqrt_lt_R0. pose proof PI_RGT_0. lra. Qed.

Lemma tanh_0 : Rtrigo_def.tanh 0 = 0.
Proof. rewrite tanh_exp, Rmult_0_r, exp_0. lra. Qed.

Lemma tanh_sat_near (x : R) : -22 < x < 22 -> Math.tanh_sat x = Rtrigo_def.tanh x.
Proof.
  intros H. unfold Math.tanh_sat.
  destruct (Rle_dec 22 x); [lra |]. destruct (Rle_dec x (-22)); [lra | reflexivity].
Qed.

Lemma tanh_sat_high (x : R) : 22 <= x -> Math.tanh_sat x = 1.
Proof.
  intros H. unfold Math.tanh_sat. destruct (Rle_dec 22 x); [reflexivity | lra].
Qed.



Lemma tanh_sat_monotone (x y : R) :
  x <= y -> Math.tanh_sat x <= Math.tanh_sat y.
Proof.
  intros Hxy. unfold Math.tanh_sat.
  pose proof (tanh_bounds x). pose proof (tanh_bounds y).
  pose proof (tanh_monotone x y Hxy).
  destruct (Rle_dec 22 x), (Rle_dec 22 y), (Rle_dec x (-22)), (Rle_dec y (-22));
    lra.
Qed.


(** Across 0 the order is strict, saturated or not. *)
Lemma tanh_sat_across (x y : R) :
  x <= 0 <= y -> x < y -> Math.tanh_sat x < Math.tanh_sat y.
Proof.
  intros [Hx Hy] Hxy. unfold Math.tanh_sat.
  pose proof tanh_0 as H0.
  pose proof (tanh_monotone x 0 Hx). pose proof (tanh_monotone 0 y Hy).
  pose proof (tanh_increasing x y Hxy).
  pose proof (tanh_bounds x). pose proof (tanh_bounds y).
  destruct (Rle_dec 22 x), (Rle_dec 22 y), (Rle_dec x (-22)), (Rle_dec y (-22));
    lra.
Qed.

Lemma volatility_pos (assetKey : Asset) :
  exists v : R, volatility (ASSETS assetKey) = Fin v /\ 0 < v.
Proof.
  destruct assetKey; simpl; eexists; (split; [reflexivity | lra]).
Qed.

Lemma sqrt_Fin (x : R) : 0 <= x -> Math.sqrt (Fin x) = Fin (sqrt x).
Proof.
  intros Hx. unfold Math.sqrt. destruct (Rlt_dec x 0); [lra | reflexivity].
Qed.

Lemma calculateTimeScaledVolatility_pos (assetKey : Asset) (h : R) (price : num) :
  0 < h ->
  exists v : R,
    calculateTimeScaledVolatility assetKey (Fin h) price = Fin v /\ 0 < v.
Proof.
  intros Hh. unfold calculateTimeScaledVolatility.
  destruct (volatility_pos assetKey) as (vol & -> & Hvol).
  rewrite div_Fin by lra.
  assert (H24 : 0 < h / 24) by (apply Rdiv_lt_0_compat; lra).
  rewrite sqrt_Fin by lra.
  pose proof (sqrt_lt_R0 _ H24) as Hs.
  assert (Hvs : 0 < vol * sqrt (h / 24)) by (apply Rmult_lt_0_compat; assumption).
  destruct (Fin h <=? Fin 1)%js; [| destruct (Fin h <=? Fin 4)%js;
                                     [| destruct (Fin h <=? Fin 24)%js]];
    simpl; eexists; (split; [reflexivity | apply Rmult_lt_0_compat; lra]).
Qed.

Lemma normalCDF_Fin (z : R) :
  normalCDF (Fin z) = Fin (0.5 * (1 + Math.tanh_sat (sqrt (PI / 8) * z))).
Proof.
  unfold normalCDF, Math.PI. rewrite div_Fin by lra.
  rewrite sqrt_Fin; [reflexivity |].
  pose proof PI_RGT_0. lra.
Qed.

Lemma normalCDF_monotone (z1 z2 : R) :
  z1 <= z2 ->
  0.5 * (1 + Math.tanh_sat (sqrt (PI / 8) * z1))
  <= 0.5 * (1 + Math.tanh_sat (sqrt (PI / 8) * z2)).
Proof.
  intros Hz. pose proof sqrt_PI_8_pos as Hk.
  assert (Ht : Math.tanh_sat (sqrt (PI / 8) * z1)
               <= Math.tanh_sat (sqrt (PI / 8) * z2)).
  { apply tanh_sat_monotone. apply Rmult_le_compat_l; lra. }
  lra.
Qed.

Lemma normalCDF_across (z1 z2 : R) :
  z1 <= 0 <= z2 -> z1 < z2 ->
  0.5 * (1 + Math.tanh_sat (sqrt (PI / 8) * z1))
  < 0.5 * (1 + Math.tanh_sat (sqrt (PI / 8) * z2)).
Proof.
  intros [H1 H2] Hz. pose proof sqrt_PI_8_pos as Hk.
  assert (Ht : Math.tanh_sat (sqrt (PI / 8) * z1)
               < Math.tanh_sat (sqrt (PI / 8) * z2)).
  { apply tanh_sat_across.
    - split.
      + replace 0 with (sqrt (PI / 8) * 0) by lra.
        apply Rmult_le_compat_l; lra.
      + apply Rmult_le_pos; lra.
    - apply Rmult_lt_compat_l; assumption. }
  lra.
Qed.

Lemma min_Fin (x y : R) : Math.min (Fin x) (Fin y) = Fin (Rmin x y).
Proof.
  unfold Rmin. destruct (Rle_dec x y) as [H | H].
  - apply min_Fin_le, H.
  - apply min_Fin_ge. lra.
Qed.

(** The engine in closed form once the volatility is a positive number. *)
Lemma calculateWinProbability_raw (assetKey : Asset) (h : num) (l u p v : R) :
  calculateTimeScaledVolatility assetKey h (Fin p) = Fin v ->
  0 < v -> 0 < p ->
  calculateWinProbability assetKey (Fin l) (Fin u) h (Fin p)
  = Fin (Rmin (rawProbability (p * v) l u p) 0.25).
Proof.
  intros Hv Hvpos Hp.
  assert (Hsd : 0 < p * v) by (apply Rmult_lt_0_compat; assumption).
  unfold calculateWinProbability. rewrite Hv.
  change (Fin p * Fin v)%js with (Fin (p * v)).
  change (Fin u - Fin p)%js with (Fin (u + - p)).
  change (Fin l - Fin p)%js with (Fin (l + - p)).
  rewrite !div_Fin by lra. rewrite !normalCDF_Fin.
  change (Fin ?a - Fin ?b)%js with (Fin (a + - b)).
  rewrite min_Fin. reflexivity.
Qed.

Lemma sqrt_between (a b x : R) :
  0 <= a -> 0 <= b -> a * a <= x -> x <= b * b -> a <= sqrt x <= b.
Proof.
  intros Ha Hb H1 H2. split.
  - rewrite <- (sqrt_square a Ha). apply sqrt_le_1_alt, H1.
  - rewrite <- (sqrt_square b Hb). apply sqrt_le_1_alt, H2.
Qed.

Lemma rawProbability_nonneg (sd l u p : R) :
  0 < sd -> l <= u -> 0 <= rawProbability sd l u p.
Proof.
  intros Hsd Hlu. unfold rawProbability.
  assert (Hz : (l - p) / sd <= (u - p) / sd).
  { unfold Rdiv. apply Rmult_le_compat_r; [left; apply Rinv_0_lt_compat, Hsd | lra]. }
  pose proof (normalCDF_monotone _ _ Hz). lra.
Qed.

Lemma rawProbability_contains (sd l u p : R) :
  0 < sd -> l <= p <= u -> l < u -> 0 < rawProbability sd l u p.
Proof.
  intros Hsd Hin Hlu. unfold rawProbability.
  assert (Hi : 0 < / sd) by (apply Rinv_0_lt_compat, Hsd).
  assert (H1 : (l - p) / sd <= 0).
  { unfold Rdiv. replace 0 with (0 * / sd) by lra.
    apply Rmult_le_compat_r; lra. }
  assert (H2 : 0 <= (u - p) / sd) by (unfold Rdiv; apply Rmult_le_pos; lra).
  assert (Hz : (l - p) / sd < (u - p) / sd)
    by (unfold Rdiv; apply Rmult_lt_compat_r; lra).
  pose proof (normalCDF_across _ _ (conj H1 H2) Hz). lra.
Qed.

(** Both bounds so far above the price, or so far below it, that
    [Math.tanh] is 1 (or -1) at both: the difference is exactly 0. *)
Lemma rawProbability_far_above (sd l u p : R) :
  0 < sd -> l <= u -> 22 <= sqrt (PI / 8) * ((l - p) / sd) ->
  rawProbability sd l u p = 0.
Proof.
  intros Hsd Hlu Hfar. unfold rawProbability.
  pose proof sqrt_PI_8_pos as Hk.
  assert (Hz : (l - p) / sd <= (u - p) / sd).
  { unfold Rdiv. apply Rmult_le_compat_r; [left; apply Rinv_0_lt_compat, Hsd | lra]. }
  assert (Hu : 22 <= sqrt (PI / 8) * ((u - p) / sd)).
  { apply Rle_trans with (1 := Hfar). apply Rmult_le_compat_l; lra. }
  rewrite !tanh_sat_high by assumption. lra.
Qed.




(** ** The reference leg, end to end *)

Lemma exp_quarter_bound (x : R) : 0 <= x -> (1 + x / 4) ^ 4 <= exp x.
Proof.
  intros Hx.
  replace (exp x) with (exp (x / 4) * exp (x / 4) * (exp (x / 4) * exp (x / 4))).
  - pose proof (exp_ineq1_le (x / 4)) as H.
    assert (H0 : 0 <= 1 + x / 4) by lra.
    assert (H2 : (1 + x / 4) * (1 + x / 4) <= exp (x / 4) * exp (x / 4))
      by (apply Rmult_le_compat; lra).
    assert (H3 : 0 <= (1 + x / 4) * (1 + x / 4)) by (apply Rmult_le_pos; lra).
    replace ((1 + x / 4) ^ 4)
      with ((1 + x / 4) * (1 + x / 4) * ((1 + x / 4) * (1 + x / 4))) by ring.
    apply Rmult_le_compat; assumption.
  - rewrite <- !exp_plus. f_equal. lra.
Qed.

Lemma sqrt_PI_8_lower : 0.612 <= sqrt (PI / 8).
Proof.
  pose proof PI2_3_2 as Hpi.
  replace 0.612 with (sqrt (0.612 * 0.612)) by (apply sqrt_square; lra).
  apply sqrt_le_1_alt. lra.
Qed.

Lemma sqrt_PI_8_upper : sqrt (PI / 8) <= 1.
Proof.
  pose proof PI_4 as Hpi. rewrite <- sqrt_1. apply sqrt_le_1_alt. lra.
Qed.

Lemma reference_volatility (price : num) :
  calculateTimeScaledVolatility BTC (Fin 24) price = Fin 0.022.
Proof.
  unfold calculateTimeScaledVolatility. cbn [ASSETS volatility].
  rewrite (proj2 (leb_Fin_false 24 1)) by lra.
  rewrite (proj2 (leb_Fin_false 24 4)) by lra.
  rewrite (proj2 (leb_Fin_true 24 24)) by lra.
  rewrite div_Fin by lra.
  replace (24 / 24) with 1 by lra.
  rewrite sqrt_Fin by lra. rewrite sqrt_1. simpl. f_equal. lra.
Qed.

(** Bitcoin, 24 hours, price 50000, bounds 49500 and 50500: the raw
    probability is [tanh (sqrt (PI / 8) * 5 / 11)], above 0.25, so the leg is
    priced at the cap. *)
Lemma reference_probability :
  calculateWinProbability BTC (Fin 49500) (Fin 50500)
                          (TIMEFRAMES tf_24_hour) (Fin 50000) = Fin 0.25.
Proof.
  unfold calculateWinProbability. cbn [TIMEFRAMES].
  rewrite reference_volatility.
  change (Fin 50000 * Fin 0.022)%js with (Fin (50000 * 0.022)).
  change (Fin 50500 - Fin 50000)%js with (Fin (50500 + - 50000)).
  change (Fin 49500 - Fin 50000)%js with (Fin (49500 + - 50000)).
  rewrite !div_Fin by lra. rewrite !normalCDF_Fin.
  change (Fin ?a - Fin ?b)%js with (Fin (a + - b)).
  apply min_Fin_ge.
  set (k := sqrt (PI / 8)).
  replace (k * ((50500 + - 50000) / (50000 * 0.022))) with (k * 5 / 11) by lra.
  replace (k * ((49500 + - 50000) / (50000 * 0.022))) with (- (k * 5 / 11)) by lra.
  pose proof sqrt_PI_8_lower as Hk. fold k in Hk.
  pose proof sqrt_PI_8_upper as Hk1. fold k in Hk1.
  rewrite !tanh_sat_near by lra.
  rewrite !tanh_exp.
  replace (2 * - (k * 5 / 11)) with (- (2 * (k * 5 / 11))) by lra.
  rewrite exp_Ropp.
  set (x := 2 * (k * 5 / 11)).
  assert (Hx : 0.556 <= x) by (unfold x; lra).
  pose proof (exp_quarter_bound x ltac:(lra)) as Hexp.
  assert (Hpow : 5 / 3 <= (1 + x / 4) ^ 4).
  { apply Rle_trans with ((1 + 0.556 / 4) ^ 4); [simpl; lra |].
    apply pow_incr. lra. }
  assert (HE : 5 / 3 <= exp x) by lra.
  clearbody x. clear Hx Hexp Hpow.
  set (E := exp x) in *.
  assert (Hinv1 : / (E + 1) <= 3 / 8).
  { replace (3 / 8) with (/ (8 / 3)) by lra.
    apply Rinv_le_contravar; lra. }
  assert (Hinv2 : / (/ E + 1) = E * / (E + 1)) by (field; lra).
  unfold Rdiv. rewrite Hinv2.
  assert (HEq : E * / (E + 1) = 1 - / (E + 1)) by (field; lra).
  rewrite HEq. lra.
Qed.

Lemma reference_range_valid :
  isRangeValid (Fin 49500) (Fin 50500) (Fin 50000) = true.
Proof.
  apply isRangeValid_spec. exists 0.02. split; [| lra].
  change (Fin 50500 - Fin 49500)%js with (Fin (50500 + - 49500)).
  rewrite div_Fin by lra. f_equal. lra.
Qed.

Lemma one_leg_state_eq :
  one_leg_state =
  setLegs [capped_leg]
    (setError ""
       (setUpperBound (Fin 50500)
          (setLowerBound (Fin 49500) (setLivePrice (Fin 50000) initialState)))).
Proof.
  unfold one_leg_state, reference_events, run. cbn [fold_left step].
  rewrite addLeg_accepted by apply reference_range_valid.
  cbn [selectedAsset timeframe lowerBound upperBound livePrice legs
       setUpperBound setLowerBound setLivePrice initialState].
  rewrite reference_probability. reflexivity.
Qed.

Lemma one_leg_state_fields :
  legs one_leg_state = [capped_leg] /\
  betAmount one_leg_state = Fin 100 /\
  history one_leg_state = [].
Proof. rewrite one_leg_state_eq. repeat split. Qed.

Lemma negative_stake_state_eq :
  negative_stake_state = setBetAmount (Fin (-100)) one_leg_state.
Proof.
  unfold negative_stake_state, one_leg_state, run.
  rewrite fold_left_app. reflexivity.
Qed.

(** ** A validated range far from the price *)

Lemma one_hour_volatility (price : num) :
  calculateTimeScaledVolatility BTC (Fin 1) price = Fin (0.02 * sqrt (1 / 24) * 1.3).
Proof.
  unfold calculateTimeScaledVolatility. cbn [ASSETS volatility].
  rewrite (proj2 (leb_Fin_true 1 1)) by lra.
  rewrite div_Fin by lra. rewrite sqrt_Fin by lra. reflexivity.
Qed.

(** Bitcoin, one hour, price 50000, bounds 60000 and 61000: the width is
    0.02, the standard deviation is below 266.5, both arguments of
    [Math.tanh] are above 22, and the probability is exactly 0. *)
Lemma far_range_probability :
  calculateWinProbability BTC (Fin 60000) (Fin 61000)
                          (TIMEFRAMES tf_1_hour) (Fin 50000) = Fin 0.
Proof.
  cbn [TIMEFRAMES].
  pose proof (sqrt_between 0.2 0.205 (1 / 24)) as Hs.
  assert (Hs' : 0.2 <= sqrt (1 / 24) <= 0.205) by lra. clear Hs.
  set (v := 0.02 * sqrt (1 / 24) * 1.3).
  assert (Hv : 0 < v) by (unfold v; lra).
  rewrite (calculateWinProbability_raw BTC (Fin 1) 60000 61000 50000 v
             (one_hour_volatility (Fin 50000)) Hv) by lra.
  assert (Hsd : 0 < 50000 * v <= 266.5) by (unfold v; lra).
  rewrite rawProbability_far_above.
  - f_equal. unfold Rmin. destruct (Rle_dec 0 0.25); lra.
  - lra.
  - lra.
  - pose proof sqrt_PI_8_lower as Hk.
    assert (Hi : / 266.5 <= / (50000 * v)) by (apply Rinv_le_contravar; lra).
    assert (Hq : 37.5 <= (60000 - 50000) / (50000 * v)) by (unfold Rdiv; lra).
    apply Rle_trans with (0.612 * 37.5); [lra |].
    apply Rmult_le_compat; lra.
Qed.


(** ** Runs of the component *)

Lemma run_snoc (events : list Event) (e : Event) :
  run (events ++ [e]) = step (run events) e.
Proof. unfold run. rewrite fold_left_app. reflexivity. Qed.

Lemma filter_index_In {A : Type} (keep : nat -> bool) (l : list A) :
  forall i x, In x (filter_index keep i l) -> In x l.
Proof.
  induction l as [| y l IH]; intros i x H; simpl in *; [exact H |].
  destruct (keep i).
  - destruct H as [H | H]; [left; exact H | right; eapply IH; exact H].
  - right. eapply IH. exact H.
Qed.

Lemma created_during_snoc events e leg :
  created_during events leg -> created_during (events ++ [e]) leg.
Proof.
  intros (pre & post & -> & Hb).
  exists pre, (post ++ [e]). split; [| exact Hb].
  rewrite <- app_assoc. reflexivity.
Qed.

Lemma placeBet_cases now iso (s : State) :
  (legs (placeBet now iso s) = legs s /\ history (placeBet now iso s) = history s) \/
  (legs (placeBet now iso s) = [] /\
   exists t, history (placeBet now iso s) = t :: history s /\
             Ticket.legs t = legs s).
Proof.
  unfold placeBet.
  destruct (Nat.eqb (List.length (legs s)) 0); [left; split; reflexivity |].
  destruct (getCombinedProb s >? Fin 0.25)%js; [left; split; reflexivity |].
  destruct (_ >? _)%js; [left; split; reflexivity |].
  right. split; [reflexivity |]. eexists. split; reflexivity.
Qed.

Lemma legs_created_during (events : list Event) :
  (forall leg, In leg (legs (run events)) -> created_during events leg) /\
  (forall t leg, In t (history (run events)) -> In leg (Ticket.legs t) ->
                 created_during events leg).
Proof.
  induction events as [| e events [IHl IHh]] using rev_ind.
  - split; simpl; intros; contradiction.
  - rewrite run_snoc.
    assert (Keep : forall s', 
               (forall leg, In leg (legs s') -> In leg (legs (run events))) ->
               (forall t, In t (history s') -> In t (history (run events))) ->
               (forall leg, In leg (legs s') -> created_during (events ++ [e]) leg) /\
               (forall t leg, In t (history s') -> In leg (Ticket.legs t) ->
                              created_during (events ++ [e]) leg)).
    { intros s' Hl Hh. split.
      - intros leg H. apply created_during_snoc, IHl, Hl, H.
      - intros t leg Ht H. apply created_during_snoc.
        apply (IHh t leg); [apply Hh, Ht | exact H]. }
    destruct e; cbn [step]; try (apply Keep; intros; assumption).
    + (* ClickAddLeg *)
      destruct (isRangeValid (lowerBound (run events)) (upperBound (run events))
                             (livePrice (run events))) eqn:Hv.
      * rewrite (addLeg_accepted _ Hv). cbn [legs history setLegs setError]. split.
        -- intros leg H. apply in_app_or in H. destruct H as [H | [<- | []]].
           ++ apply created_during_snoc, IHl, H.
           ++ exists events, []. split; [reflexivity |].
              repeat split; try reflexivity. exact Hv.
        -- intros t leg Ht H. apply created_during_snoc. apply (IHh t leg Ht H).
      * unfold addLeg. rewrite (addLegWith_rejected _ _ Hv).
        apply Keep; intros; assumption.
    + (* ClickRemove *)
      apply Keep; [| intros; assumption].
      intros leg H. simpl in H. eapply filter_index_In. exact H.
    + (* ClickPlaceBet *)
      destruct (placeBet_cases now iso (run events)) as [[Hl Hh] | [Hl (t & Hh & Ht)]].
      * apply Keep; [rewrite Hl | rewrite Hh]; intros; assumption.
      * rewrite Hl, Hh. split; [intros leg [] |].
        intros t' leg [<- | Hin] H.
        -- rewrite Ht in H. apply created_during_snoc, IHl, H.
        -- apply created_during_snoc. apply (IHh t' leg Hin H).
Qed.

(** C8: [isRangeValid] holds exactly when the width [(upper - lower) / price]
    is a number between 0.01 and 0.30; [addLeg] changes the parlay only when
    the validator passes at the live price, and then by appending one leg
    with the bounds entered; and in every run of the component, each leg a
    parlay holds was built by a click whose bounds had a width between 0.01
    and 0.30 at the live price of that moment. *)
Theorem range_invariant :
  (forall lowerBound upperBound price : num,
      isRangeValid lowerBound upperBound price = true <->
      exists w : R,
        ((upperBound - lowerBound) / price)%js = Fin w /\ 0.01 <= w <= 0.30) /\
  (forall s : State,
      legs (addLeg s) <> legs s ->
      isRangeValid (lowerBound s) (upperBound s) (livePrice s) = true /\
      exists leg, legs (addLeg s) = legs s ++ [leg] /\
                  Leg.lowerBound leg = lowerBound s /\
                  Leg.upperBound leg = upperBound s) /\
  (forall (events : list Event) (leg : Leg.t),
      In leg (legs (run events)) ->
      exists pre post (w : R),
        events = pre ++ ClickAddLeg :: post /\
        ((Leg.upperBound leg - Leg.lowerBound leg) / livePrice (run pre))%js = Fin w /\
        0.01 <= w <= 0.30).
Proof.
  split; [exact isRangeValid_spec | split].
  - intros s Hne.
    destruct (isRangeValid (lowerBound s) (upperBound s) (livePrice s)) eqn:Hv.
    + split; [reflexivity |]. rewrite (addLeg_accepted _ Hv). simpl.
      eexists. split; [reflexivity |]. split; reflexivity.
    + exfalso. apply Hne. unfold addLeg.
      rewrite (addLegWith_rejected _ _ Hv). reflexivity.
  - intros events leg Hin.
    destruct (proj1 (legs_created_during events) leg Hin)
      as (pre & post & Hev & Hv & Hlo & Hup & _).
    apply isRangeValid_spec in Hv. destruct Hv as (w & Hw & Hb).
    exists pre, post, w. rewrite Hlo, Hup. auto.
Qed.

Lemma range_invariant_witness :
  In capped_leg (legs (run reference_events)) /\
  exists pre post (w : R),
    reference_events = pre ++ ClickAddLeg :: post /\
    ((Leg.upperBound capped_leg - Leg.lowerBound capped_leg)
     / livePrice (run pre))%js = Fin w /\
    0.01 <= w <= 0.30.
Proof.
  assert (H : In capped_leg (legs (run reference_events))).
  { fold one_leg_state. rewrite (proj1 one_leg_state_fields). left. reflexivity. }
  split; [exact H |].
  exact (proj2 (proj2 range_invariant) reference_events capped_leg H).
Defined.

(** ** The risk gates of [placeBet] *)

Lemma length_eqb_0 {A : Type} (l : list A) :
  Nat.eqb (List.length l) 0 = true <-> l = [].
Proof. destruct l; simpl; split; intros H; try reflexivity; discriminate. Qed.

Lemma length_eqb_0_false {A : Type} (l : list A) :
  Nat.eqb (List.length l) 0 = false <-> l <> [].
Proof.
  destruct l; simpl; split; intros H; try reflexivity; try discriminate.
  contradiction.
Qed.

Lemma cap_value : (TREASURY_SIZE * MAX_PAYOUT_PERCENTAGE)%js = Fin 2000.
Proof. simpl. f_equal. lra. Qed.

Lemma placeBet_empty now iso (s : State) :
  legs s = [] -> placeBet now iso s = setError EMPTY_PARLAY_ERROR s.
Proof.
  intros H. unfold placeBet.
  rewrite (proj2 (length_eqb_0 (legs s)) H). reflexivity.
Qed.

Lemma placeBet_probability_cap now iso (s : State) :
  legs s <> [] ->
  (getCombinedProb s >? Fin 0.25)%js = true ->
  placeBet now iso s = setError PROBABILITY_CAP_ERROR s.
Proof.
  intros H Hp. unfold placeBet.
  rewrite (proj2 (length_eqb_0_false (legs s)) H), Hp. reflexivity.
Qed.

Lemma placeBet_exposure_cap now iso (s : State) :
  legs s <> [] ->
  (getCombinedProb s >? Fin 0.25)%js = false ->
  (betAmount s * calculatePayoutOdds (getCombinedProb s) DEFAULT_HOUSE_EDGE
   >? TREASURY_SIZE * MAX_PAYOUT_PERCENTAGE)%js = true ->
  placeBet now iso s = setError EXPOSURE_CAP_ERROR s.
Proof.
  intros H Hp He. unfold placeBet.
  rewrite (proj2 (length_eqb_0_false (legs s)) H), Hp, He. reflexivity.
Qed.

Lemma placeBet_accept now iso (s : State) :
  legs s <> [] ->
  (getCombinedProb s >? Fin 0.25)%js = false ->
  (betAmount s * calculatePayoutOdds (getCombinedProb s) DEFAULT_HOUSE_EDGE
   >? TREASURY_SIZE * MAX_PAYOUT_PERCENTAGE)%js = false ->
  placeBet now iso s =
  setLegs [] (setHistory (newTicket now iso s :: history s) (setError "" s)).
Proof.
  intros H Hp He. unfold placeBet.
  rewrite (proj2 (length_eqb_0_false (legs s)) H), Hp, He. reflexivity.
Qed.

(** The four outcomes of a submission, told apart by what it leaves in
    [error] and [history]. *)
Lemma placeBet_outcome now iso (s : State) :
  (placeBet now iso s = setError EMPTY_PARLAY_ERROR s /\ legs s = []) \/
  (placeBet now iso s = setError PROBABILITY_CAP_ERROR s /\ legs s <> [] /\
   (getCombinedProb s >? Fin 0.25)%js = true) \/
  (placeBet now iso s = setError EXPOSURE_CAP_ERROR s /\ legs s <> [] /\
   (getCombinedProb s >? Fin 0.25)%js = false /\
   (betAmount s * calculatePayoutOdds (getCombinedProb s) DEFAULT_HOUSE_EDGE
    >? TREASURY_SIZE * MAX_PAYOUT_PERCENTAGE)%js = true) \/
  (placeBet now iso s =
     setLegs [] (setHistory (newTicket now iso s :: history s) (setError "" s)) /\
   legs s <> [] /\
   (getCombinedProb s >? Fin 0.25)%js = false /\
   (betAmount s * calculatePayoutOdds (getCombinedProb s) DEFAULT_HOUSE_EDGE
    >? TREASURY_SIZE * MAX_PAYOUT_PERCENTAGE)%js = false).
Proof.
  destruct (legs s) as [| leg rest] eqn:Hl.
  - left. split; [apply placeBet_empty, Hl | reflexivity].
  - assert (Hne : legs s <> []) by (rewrite Hl; discriminate).
    right.
    destruct (getCombinedProb s >? Fin 0.25)%js eqn:Hp.
    + left. split; [apply placeBet_probability_cap; assumption |].
      split; [discriminate | reflexivity].
    + right.
      destruct (betAmount s * calculatePayoutOdds (getCombinedProb s) DEFAULT_HOUSE_EDGE
                >? TREASURY_SIZE * MAX_PAYOUT_PERCENTAGE)%js eqn:He.
      * left. split; [apply placeBet_exposure_cap; assumption |].
        repeat split; try reflexivity. discriminate.
      * right. split; [apply placeBet_accept; assumption |].
        repeat split; try reflexivity. discriminate.
Qed.

(** C1: the gates of [placeBet], in order.  An empty parlay is rejected with
    the empty-parlay reason; otherwise a combined probability above 0.25 is
    rejected with the probability-cap reason, whatever the stake; otherwise a
    stake whose product with [calculatePayoutOdds] of the combined
    probability is above [TREASURY_SIZE * MAX_PAYOUT_PERCENTAGE] (2000) is
    rejected with the exposure-cap reason; otherwise the submission is
    accepted: a ticket holding the current legs, the stake, the timestamp,
    the combined odds and the result ["pending"] is put in front of the
    history, and the parlay is cleared. *)
Theorem placeBet_gates :
  forall (now : Z) (iso : string) (s : State),
    (legs s = [] ->
     placeBet now iso s = setError EMPTY_PARLAY_ERROR s) /\
    (legs s <> [] ->
     (getCombinedProb s >? Fin 0.25)%js = true ->
     forall stake : num,
       placeBet now iso (setBetAmount stake s) =
       setError PROBABILITY_CAP_ERROR (setBetAmount stake s)) /\
    (legs s <> [] ->
     (getCombinedProb s >? Fin 0.25)%js = false ->
     (betAmount s * calculatePayoutOdds (getCombinedProb s) DEFAULT_HOUSE_EDGE
      >? Fin 20000 * Fin 0.10)%js = true ->
     placeBet now iso s = setError EXPOSURE_CAP_ERROR s) /\
    (legs s <> [] ->
     (getCombinedProb s >? Fin 0.25)%js = false ->
     (betAmount s * calculatePayoutOdds (getCombinedProb s) DEFAULT_HOUSE_EDGE
      >? Fin 20000 * Fin 0.10)%js = false ->
     exists t : Ticket.t,
       placeBet now iso s =
       setLegs [] (setHistory (t :: history s) (setError "" s)) /\
       Ticket.legs t = legs s /\
       Ticket.betAmount t = betAmount s /\
       Ticket.timestamp t = iso /\
       Ticket.combinedPayout t = getCombinedPayout s /\
       Ticket.result t = "pending"%string).
Proof.
  intros now iso s. repeat split.
  - apply placeBet_empty.
  - intros Hne Hp stake. apply placeBet_probability_cap; assumption.
  - intros Hne Hp He. apply placeBet_exposure_cap; assumption.
  - intros Hne Hp He. exists (newTicket now iso s).
    split; [apply placeBet_accept; assumption |].
    repeat split; reflexivity.
Qed.

(** ** Rejections leave the parlay and the ledger alone *)

Lemma error_messages_nonempty :
  RANGE_ERROR <> ""%string /\ EMPTY_PARLAY_ERROR <> ""%string /\
  PROBABILITY_CAP_ERROR <> ""%string /\ EXPOSURE_CAP_ERROR <> ""%string.
Proof. repeat split; discriminate. Qed.

(** C5: a rejection changes nothing but the error message.  When [addLeg]
    finds the range invalid, and when [placeBet] stops at the empty-parlay,
    probability-cap or exposure-cap gate, the resulting state is the one
    before with [error] set: the legs and the history are the same; stated
    also from the outside, whenever either handler leaves an error message,
    legs and history are unchanged. *)
Theorem rejection_is_atomic :
  (forall s : State,
      isRangeValid (lowerBound s) (upperBound s) (livePrice s) = false ->
      addLeg s = setError RANGE_ERROR s /\
      legs (addLeg s) = legs s /\ history (addLeg s) = history s) /\
  (forall (now : Z) (iso : string) (s : State),
      legs s = [] \/
      (getCombinedProb s >? Fin 0.25)%js = true \/
      (betAmount s * calculatePayoutOdds (getCombinedProb s) DEFAULT_HOUSE_EDGE
       >? TREASURY_SIZE * MAX_PAYOUT_PERCENTAGE)%js = true ->
      (exists reason, placeBet now iso s = setError reason s) /\
      legs (placeBet now iso s) = legs s /\
      history (placeBet now iso s) = history s) /\
  (forall s : State,
      error (addLeg s) <> ""%string ->
      legs (addLeg s) = legs s /\ history (addLeg s) = history s) /\
  (forall (now : Z) (iso : string) (s : State),
      error (placeBet now iso s) <> ""%string ->
      legs (placeBet now iso s) = legs s /\
      history (placeBet now iso s) = history s).
Proof.
  repeat apply conj.
  - intros s Hv. unfold addLeg. rewrite (addLegWith_rejected _ _ Hv).
    repeat split; reflexivity.
  - intros now iso s Hrej.
    destruct (placeBet_outcome now iso s)
      as [[E _] | [[E _] | [[E _] | [E (Hne & Hp & He)]]]];
      try (rewrite E; split; [eexists; reflexivity | split; reflexivity]).
    exfalso. destruct Hrej as [H | [H | H]].
    + contradiction.
    + rewrite Hp in H. discriminate.
    + rewrite He in H. discriminate.
  - intros s Herr.
    destruct (isRangeValid (lowerBound s) (upperBound s) (livePrice s)) eqn:Hv.
    + exfalso. apply Herr. rewrite (addLeg_accepted _ Hv). reflexivity.
    + unfold addLeg. rewrite (addLegWith_rejected _ _ Hv). split; reflexivity.
  - intros now iso s Herr.
    destruct (placeBet_outcome now iso s)
      as [[E _] | [[E _] | [[E _] | [E _]]]];
      try (rewrite E; split; reflexivity).
    exfalso. apply Herr. rewrite E. reflexivity.
Qed.

Lemma rejection_is_atomic_witness :
  error (placeBet 0 "" initialState) <> ""%string /\
  legs (placeBet 0 "" initialState) = legs initialState /\
  history (placeBet 0 "" initialState) = history initialState.
Proof.
  assert (H : error (placeBet 0 "" initialState) <> ""%string)
    by (simpl; discriminate).
  split; [exact H |].
  exact (proj2 (proj2 (proj2 rejection_is_atomic)) 0%Z ""%string initialState H).
Defined.

(** ** The parlay aggregator *)

Lemma getCombinedProb_legs (s : State) :
  getCombinedProb s = combinedProbability (legs s).
Proof. reflexivity. Qed.

Lemma getCombinedPayout_legs (s : State) :
  getCombinedPayout s = combinedOdds (legs s).
Proof. reflexivity. Qed.

Lemma product_pos (ps : list R) :
  Forall (fun p => 0 < p) ps -> 0 < product ps.
Proof.
  induction 1 as [| p ps Hp _ IH]; simpl; [lra |].
  apply Rmult_lt_0_compat; assumption.
Qed.

Lemma fold_probabilities (parlay : list Leg.t) :
  forall (ps : list R) (a : R),
    map Leg.probability parlay = map Fin ps ->
    fold_left (fun acc leg => (acc * Leg.probability leg)%js) parlay (Fin a)
    = Fin (a * product ps).
Proof.
  induction parlay as [| leg parlay IH]; intros [| p ps] a H; simpl in *;
    try discriminate.
  - f_equal. lra.
  - injection H as Hp Hrest. rewrite Hp. simpl.
    rewrite (IH ps (a * p) Hrest). f_equal. lra.
Qed.

Lemma pow_Fin_pos (b e : R) :
  0 < b -> e <> 0 -> Math.pow (Fin b) (Fin e) = Fin (Rpower b e).
Proof.
  intros Hb He. unfold Math.pow.
  destruct (Req_dec_T e 0); [contradiction |].
  apply signed_pos, Hb.
Qed.

Lemma bonus_value (n : nat) :
  (if Nat.eqb n 2 then Fin 1.3 else if Nat.eqb n 3 then Fin 1.5 else Fin 1.0)
  = Fin (bonus n).
Proof. destruct n as [| [| [| [| n]]]]; reflexivity. Qed.

Lemma combinedProbability_nil : combinedProbability [] = Fin 0.
Proof. reflexivity. Qed.

Lemma combinedProbability_unfold (parlay : list Leg.t) :
  parlay <> [] ->
  combinedProbability parlay =
  (Math.pow (fold_left (fun acc leg => (acc * Leg.probability leg)%js) parlay (Fin 1))
            (Fin 1 / JS.of_nat (List.length parlay))
   * Fin 0.85 * Fin (bonus (List.length parlay)))%js.
Proof.
  intros Hne. unfold combinedProbability, getCombinedProb.
  cbn [legs setLegs].
  rewrite (proj2 (length_eqb_0_false parlay) Hne), bonus_value. reflexivity.
Qed.

Lemma combinedProbability_formula (parlay : list Leg.t) (ps : list R) :
  parlay <> [] ->
  map Leg.probability parlay = map Fin ps ->
  Forall (fun p => 0 < p) ps ->
  combinedProbability parlay =
  Fin (Rpower (product ps) (1 / INR (List.length ps))
       * 0.85 * bonus (List.length ps)).
Proof.
  intros Hne Hmap Hpos.
  assert (Hlen : List.length parlay = List.length ps).
  { rewrite <- (length_map Leg.probability parlay), Hmap. apply length_map. }
  assert (Hn : INR (List.length ps) <> 0).
  { apply not_0_INR. rewrite <- Hlen. destruct parlay; [contradiction | discriminate]. }
  rewrite (combinedProbability_unfold _ Hne).
  rewrite (fold_probabilities parlay ps 1 Hmap), Hlen.
  unfold JS.of_nat. rewrite (div_Fin 1 _ Hn).
  rewrite pow_Fin_pos.
  - simpl. rewrite Rmult_1_l. reflexivity.
  - rewrite Rmult_1_l. apply product_pos, Hpos.
  - unfold Rdiv. rewrite Rmult_1_l. apply Rinv_neq_0_compat, Hn.
Qed.

Lemma combinedProbability_single (leg : Leg.t) (p : R) :
  Leg.probability leg = Fin p -> 0 < p ->
  combinedProbability [leg] = Fin (p * 0.85 * 1.0).
Proof.
  intros Hp Hpos.
  rewrite (combinedProbability_formula [leg] [p]).
  - simpl. f_equal.
    replace (1 / 1) with 1 by lra. rewrite Rmult_1_r, Rpower_1 by assumption.
    reflexivity.
  - discriminate.
  - simpl. rewrite Hp. reflexivity.
  - constructor; [assumption | constructor].
Qed.

Lemma combinedProbability_pair (leg1 leg2 : Leg.t) (p : R) :
  Leg.probability leg1 = Fin p -> Leg.probability leg2 = Fin p -> 0 < p ->
  combinedProbability [leg1; leg2] = Fin (p * 0.85 * 1.3).
Proof.
  intros Hp1 Hp2 Hpos.
  rewrite (combinedProbability_formula [leg1; leg2] [p; p]).
  - simpl. f_equal.
    replace (1 / (1 + 1)) with (/ 2) by lra.
    rewrite Rmult_1_r, Rpower_sqrt by (apply Rmult_lt_0_compat; assumption).
    rewrite sqrt_square by lra. reflexivity.
  - discriminate.
  - simpl. rewrite Hp1, Hp2. reflexivity.
  - repeat constructor; assumption.
Qed.

(** [toFixed] on a non-negative number below [10^21]: the digits are those
    of the integer nearest to [x * 10^f], the larger one on a tie. *)
Lemma toFixed_nonneg (x : R) (f : nat) (n : Z) :
  0 <= x -> x < 10 ^ 21 ->
  IZR n <= x * 10 ^ f + / 2 < IZR n + 1 ->
  toFixed (Fin x) f = Fixed false n f.
Proof.
  intros H0 Hbig Hn. unfold toFixed.
  rewrite (proj2 (Rltb_false x 0) H0), (Rabs_pos_eq x H0).
  rewrite (proj2 (Rleb_false (10 ^ 21) x) Hbig).
  f_equal. symmetry. apply Int_part_spec. lra.
Qed.

(** The text of [toFixed] reads back within half a unit of the last digit. *)
Lemma toFixed_close (x : R) (f : nat) :
  0 <= x -> x < 10 ^ 21 ->
  exists v : R,
    toNumber (VString (toFixed (Fin x) f)) = Fin v /\
    Rabs (v - x) <= / 2 / 10 ^ f.
Proof.
  intros H0 Hbig.
  destruct (base_Int_part (x * 10 ^ f + / 2)) as [Hle Hgt].
  rewrite (toFixed_nonneg x f (Int_part (x * 10 ^ f + / 2)) H0 Hbig) by lra.
  eexists. split; [reflexivity |].
  assert (Hpow : 0 < 10 ^ f) by (apply pow_lt; lra).
  set (n := IZR (Int_part (x * 10 ^ f + / 2))) in *.
  assert (Hinv : 0 < / 10 ^ f) by (apply Rinv_0_lt_compat, Hpow).
  assert (Hx : x = x * 10 ^ f * / 10 ^ f) by (field; lra).
  assert (Hlo : 0 <= (n - x * 10 ^ f + / 2) * / 10 ^ f)
    by (apply Rmult_le_pos; lra).
  assert (Hhi : 0 <= (/ 2 - (n - x * 10 ^ f)) * / 10 ^ f)
    by (apply Rmult_le_pos; lra).
  unfold Rdiv. apply Rabs_le.
  rewrite Hx at 1 2. split; lra.
Qed.

(** ** Accepted submissions *)

Lemma cons_neq_self {A : Type} (x : A) (l : list A) : l <> x :: l.
Proof.
  intros H. apply (f_equal (@List.length A)) in H. simpl in H. lia.
Qed.

(** A ticket appears in the history exactly on the accepting path. *)
Lemma placeBet_recorded now iso (s : State) (t : Ticket.t) :
  history (placeBet now iso s) = t :: history s ->
  t = newTicket now iso s /\
  legs s <> [] /\
  (getCombinedProb s >? Fin 0.25)%js = false /\
  (betAmount s * calculatePayoutOdds (getCombinedProb s) DEFAULT_HOUSE_EDGE
   >? TREASURY_SIZE * MAX_PAYOUT_PERCENTAGE)%js = false.
Proof.
  intros H.
  destruct (placeBet_outcome now iso s)
    as [[E _] | [[E _] | [[E _] | [E (Hne & Hp & He)]]]];
    rewrite E in H; cbn [history setError setLegs setHistory] in H;
    try (exfalso; exact (cons_neq_self _ _ H)).
  injection H as <-. auto.
Qed.

Lemma placeBet_accept_Fin now iso (s : State) (c b : R) :
  legs s <> [] ->
  getCombinedProb s = Fin c -> 0 < c <= 0.25 ->
  betAmount s = Fin b -> b * (1 / c * (1 - 0.07)) <= 2000 ->
  placeBet now iso s =
  setLegs [] (setHistory (newTicket now iso s :: history s) (setError "" s)).
Proof.
  intros Hne Hc Hr Hb Hpay. apply placeBet_accept; [assumption | |].
  - rewrite Hc. apply gtb_Fin_false. lra.
  - rewrite Hc, Hb. unfold DEFAULT_HOUSE_EDGE.
    rewrite calculatePayoutOdds_Fin by lra. rewrite cap_value.
    apply gtb_Fin_false. exact Hpay.
Qed.

(** On the accepting path with a positive combined probability, that
    probability is a finite number in (0, 0.25]. *)
Lemma accepted_probability (c : num) :
  (c >? Fin 0.25)%js = false -> (c >? Fin 0)%js = true ->
  exists r : R, c = Fin r /\ 0 < r <= 0.25.
Proof.
  destruct c as [r | | |]; simpl; intros H1 H2; try discriminate.
  exists r. split; [reflexivity |].
  apply Rltb_false in H1. apply Rltb_true in H2. lra.
Qed.

Lemma capped_leg_probability : combinedProbability [capped_leg] = Fin (0.25 * 0.85 * 1.0).
Proof. apply combinedProbability_single; [reflexivity | lra]. Qed.

Lemma capped_leg_odds_text :
  toFixed (calculatePayoutOdds (Math.min (Fin (0.25 * 0.85 * 1.0)) (Fin 0.25))
                               DEFAULT_HOUSE_EDGE) 2
  = Fixed false 438 2.
Proof.
  rewrite min_Fin_le by lra. unfold DEFAULT_HOUSE_EDGE.
  rewrite calculatePayoutOdds_Fin by lra.
  apply toFixed_nonneg; simpl; lra.
Qed.

Lemma capped_leg_combinedOdds :
  combinedOdds [capped_leg] = VString (Fixed false 438 2).
Proof.
  unfold combinedOdds, getCombinedPayout.
  rewrite getCombinedProb_legs. cbn [legs setLegs].
  rewrite capped_leg_probability.
  rewrite (proj2 (gtb_Fin_true _ 0)) by lra.
  rewrite capped_leg_odds_text. reflexivity.
Qed.

Lemma one_leg_state_accepted now iso :
  placeBet now iso one_leg_state =
  setLegs [] (setHistory (newTicket now iso one_leg_state :: history one_leg_state)
                         (setError "" one_leg_state)).
Proof.
  destruct one_leg_state_fields as (Hl & Hb & _).
  apply (placeBet_accept_Fin now iso one_leg_state (0.25 * 0.85 * 1.0) 100).
  - rewrite Hl. discriminate.
  - rewrite getCombinedProb_legs, Hl. apply capped_leg_probability.
  - lra.
  - exact Hb.
  - lra.
Qed.

(** The reference state takes the accepting path of [placeBet_gates]. *)
Lemma placeBet_gates_witness :
  legs one_leg_state <> [] /\
  (getCombinedProb one_leg_state >? Fin 0.25)%js = false /\
  (betAmount one_leg_state
   * calculatePayoutOdds (getCombinedProb one_leg_state) DEFAULT_HOUSE_EDGE
   >? Fin 20000 * Fin 0.10)%js = false /\
  exists t : Ticket.t,
    placeBet 0 "" one_leg_state =
    setLegs [] (setHistory (t :: history one_leg_state) (setError "" one_leg_state)) /\
    Ticket.legs t = legs one_leg_state /\
    Ticket.betAmount t = betAmount one_leg_state /\
    Ticket.timestamp t = ""%string /\
    Ticket.combinedPayout t = getCombinedPayout one_leg_state /\
    Ticket.result t = "pending"%string.
Proof.
  destruct one_leg_state_fields as (Hl & Hb & _).
  assert (Hc : getCombinedProb one_leg_state = Fin (0.25 * 0.85 * 1.0))
    by (rewrite getCombinedProb_legs, Hl; apply capped_leg_probability).
  assert (H1 : legs one_leg_state <> []) by (rewrite Hl; discriminate).
  assert (H2 : (getCombinedProb one_leg_state >? Fin 0.25)%js = false)
    by (rewrite Hc; apply gtb_Fin_false; lra).
  assert (H3 : (betAmount one_leg_state
                * calculatePayoutOdds (getCombinedProb one_leg_state)
                                      DEFAULT_HOUSE_EDGE
                >? Fin 20000 * Fin 0.10)%js = false).
  { rewrite Hc, Hb. unfold DEFAULT_HOUSE_EDGE.
    rewrite calculatePayoutOdds_Fin by lra.
    apply gtb_Fin_false. lra. }
  split; [exact H1 |]. split; [exact H2 |]. split; [exact H3 |].
  exact (proj2 (proj2 (proj2 (placeBet_gates 0%Z ""%string one_leg_state)))
           H1 H2 H3).
Defined.

Lemma capped_leg_odds_differ :
  combinedOdds [capped_leg] <>
    VNumber (calculatePayoutOdds
               (Math.min (combinedProbability [capped_leg]) (Fin 0.25))
               DEFAULT_HOUSE_EDGE) /\
  toNumber (combinedOdds [capped_leg]) <>
    calculatePayoutOdds (Math.min (combinedProbability [capped_leg]) (Fin 0.25))
                        DEFAULT_HOUSE_EDGE.
Proof.
  rewrite capped_leg_combinedOdds, capped_leg_probability.
  split; [discriminate |].
  rewrite min_Fin_le by lra. unfold DEFAULT_HOUSE_EDGE.
  rewrite calculatePayoutOdds_Fin by lra. simpl.
  intros H. injection H as H. lra.
Qed.

(** C3, as stated, fails on the combined odds: for the parlay made of one leg
    priced at 0.25 the combined probability is 0.2125 and
    [calculatePayoutOdds] of it is 0.93 / 0.2125 = 4.3764..., but the
    combined odds the component computes is the text "4.38". *)
Lemma combinedOdds_not_raw :
  combinedProbability [capped_leg] = Fin (0.25 * 0.85 * 1.0) /\
  combinedOdds [capped_leg] = VString (Fixed false 438 2) /\
  combinedOdds [capped_leg] <>
    VNumber (calculatePayoutOdds
               (Math.min (combinedProbability [capped_leg]) (Fin 0.25))
               DEFAULT_HOUSE_EDGE) /\
  toNumber (combinedOdds [capped_leg]) <>
    calculatePayoutOdds (Math.min (combinedProbability [capped_leg]) (Fin 0.25))
                        DEFAULT_HOUSE_EDGE.
Proof.
  split; [apply capped_leg_probability |].
  split; [apply capped_leg_combinedOdds |].
  exact capped_leg_odds_differ.
Qed.

(** C3, amended: the combined probability of the empty sequence is 0; for
    [n >= 1] legs it is [Math.pow] of the product of their probabilities to
    the [1 / n], times 0.85, times the bonus (1.3 for two legs, 1.5 for
    three, 1.0 otherwise), which for positive probabilities is the real
    [n]-th root of the product times those factors; it is not capped at
    0.25 (two legs at 0.25 combine to more);
    the combined odds are [calculatePayoutOdds] of the combined probability
    capped at 0.25, rendered by [toFixed(2)], when the combined probability
    is greater than 0, and the number 0 otherwise; the live potential payout
    multiplies the stake by the unrendered odds of the capped probability. *)
Theorem combined_probability_and_odds :
  combinedProbability [] = Fin 0 /\
  (forall parlay : list Leg.t,
      parlay <> [] ->
      combinedProbability parlay =
      (Math.pow (fold_left (fun acc leg => (acc * Leg.probability leg)%js)
                           parlay (Fin 1))
                (Fin 1 / JS.of_nat (List.length parlay))
       * Fin 0.85 * Fin (bonus (List.length parlay)))%js) /\
  (forall (parlay : list Leg.t) (ps : list R),
      parlay <> [] ->
      map Leg.probability parlay = map Fin ps ->
      Forall (fun p => 0 < p) ps ->
      combinedProbability parlay =
      Fin (Rpower (product ps) (1 / INR (List.length ps))
           * 0.85 * bonus (List.length ps))) /\
  (bonus 2 = 1.3 /\ bonus 3 = 1.5 /\
   forall n : nat, n <> 2%nat -> n <> 3%nat -> bonus n = 1.0) /\
  (exists (parlay : list Leg.t) (c : R),
      Forall (fun leg => exists p, Leg.probability leg = Fin p /\ 0 < p <= 0.25)
             parlay /\
      combinedProbability parlay = Fin c /\ 0.25 < c) /\
  (forall parlay : list Leg.t,
      combinedOdds parlay =
      if (combinedProbability parlay >? Fin 0)%js
      then VString (toFixed (calculatePayoutOdds
                               (Math.min (combinedProbability parlay) (Fin 0.25))
                               DEFAULT_HOUSE_EDGE) 2)
      else VNumber (Fin 0)) /\
  (forall s : State,
      livePotentialPayout s =
      (betAmount s *
       calculatePayoutOdds (Math.min (combinedProbability (legs s)) (Fin 0.25))
                           DEFAULT_HOUSE_EDGE)%js).
Proof.
  split; [reflexivity |].
  split; [exact combinedProbability_unfold |].
  split; [exact combinedProbability_formula |].
  split.
  { repeat split; try reflexivity.
    intros [| [| [| [| n]]]] H2 H3; try reflexivity; contradiction. }
  split.
  { exists [capped_leg; capped_leg], (0.25 * 0.85 * 1.3).
    split; [| split].
    - repeat constructor; exists 0.25; (split; [reflexivity | lra]).
    - apply combinedProbability_pair; try reflexivity. lra.
    - lra. }
  split; [intros parlay; reflexivity | intros s; reflexivity].
Qed.

Lemma combined_probability_and_odds_witness :
  [capped_leg] <> [] /\
  map Leg.probability [capped_leg] = map Fin [0.25] /\
  Forall (fun p => 0 < p) [0.25] /\
  combinedProbability [capped_leg] =
  Fin (Rpower (product [0.25]) (1 / INR 1) * 0.85 * bonus 1).
Proof.
  assert (H1 : [capped_leg] <> []) by discriminate.
  assert (H2 : map Leg.probability [capped_leg] = map Fin [0.25]) by reflexivity.
  assert (H3 : Forall (fun p => 0 < p) [0.25]) by (repeat constructor; lra).
  repeat split; try assumption.
  exact (proj1 (proj2 (proj2 combined_probability_and_odds))
           [capped_leg] [0.25] H1 H2 H3).
Defined.

(** C4, as stated, fails: the ticket recorded for the one-leg parlay at stake
    100 stores the text "4.38", which reads as 4.38, while
    [calculatePayoutOdds] recomputed from the ticket's legs is
    0.93 / 0.2125 = 4.3764.... *)
Lemma ticket_odds_not_raw :
  exists t : Ticket.t,
    history (placeBet 0 "" one_leg_state) = [t] /\
    Ticket.legs t = [capped_leg] /\
    Ticket.combinedPayout t = VString (Fixed false 438 2) /\
    Ticket.combinedPayout t <>
      VNumber (calculatePayoutOdds
                 (Math.min (combinedProbability (Ticket.legs t)) (Fin 0.25))
                 DEFAULT_HOUSE_EDGE) /\
    toNumber (Ticket.combinedPayout t) <>
      calculatePayoutOdds
        (Math.min (combinedProbability (Ticket.legs t)) (Fin 0.25))
        DEFAULT_HOUSE_EDGE.
Proof.
  exists (newTicket 0 "" one_leg_state).
  destruct one_leg_state_fields as (Hl & _ & Hh).
  rewrite one_leg_state_accepted.
  cbn [history setLegs setHistory setError newTicket
       Ticket.combinedPayout Ticket.legs].
  rewrite Hh, getCombinedPayout_legs, Hl.
  split; [reflexivity |]. split; [reflexivity |].
  destruct capped_leg_odds_differ as (H2 & H3).
  split; [apply capped_leg_combinedOdds |]. auto.
Qed.

(** C4, amended: for every ticket an accepted submission records, the stored
    combined odds are [calculatePayoutOdds] of the combined probability of
    the ticket's own legs capped at 0.25, rendered by [toFixed(2)], whenever
    that combined probability is greater than 0: a text that reads back
    within 0.005 of the recomputed odds (for odds below 10^21); when the
    combined probability is not greater than 0 the stored value is the
    number 0. *)
Theorem ticket_odds_round_trip :
  forall (now : Z) (iso : string) (s : State) (t : Ticket.t),
    history (placeBet now iso s) = t :: history s ->
    ((combinedProbability (Ticket.legs t) >? Fin 0)%js = true ->
     Ticket.combinedPayout t =
       VString (toFixed (calculatePayoutOdds
                           (Math.min (combinedProbability (Ticket.legs t)) (Fin 0.25))
                           DEFAULT_HOUSE_EDGE) 2) /\
     exists o : R,
       calculatePayoutOdds
         (Math.min (combinedProbability (Ticket.legs t)) (Fin 0.25))
         DEFAULT_HOUSE_EDGE = Fin o /\
       (o < 10 ^ 21 ->
        exists v : R,
          toNumber (Ticket.combinedPayout t) = Fin v /\ Rabs (v - o) <= 0.005)) /\
    ((combinedProbability (Ticket.legs t) >? Fin 0)%js = false ->
     Ticket.combinedPayout t = VNumber (Fin 0)).
Proof.
  intros now iso s t H.
  destruct (placeBet_recorded now iso s t H) as (-> & Hne & Hp & _).
  cbn [newTicket Ticket.legs Ticket.combinedPayout].
  rewrite getCombinedProb_legs in Hp.
  unfold getCombinedPayout. rewrite getCombinedProb_legs.
  split.
  - intros Hpos. rewrite Hpos. split; [reflexivity |].
    destruct (accepted_probability _ Hp Hpos) as (c & -> & Hc).
    rewrite min_Fin_le by lra. unfold DEFAULT_HOUSE_EDGE.
    rewrite calculatePayoutOdds_Fin by lra.
    eexists. split; [reflexivity |]. intros Hbig.
    assert (Ho : 0 <= 1 / c * (1 - 0.07)).
    { apply Rmult_le_pos; [| lra].
      unfold Rdiv. rewrite Rmult_1_l. left. apply Rinv_0_lt_compat. lra. }
    destruct (toFixed_close _ 2 Ho Hbig) as (v & Hv & Hclose).
    exists v. split; [exact Hv |]. simpl in Hclose. lra.
  - intros Hneg. rewrite Hneg. reflexivity.
Qed.

Lemma ticket_odds_round_trip_witness :
  history (placeBet 0 "" one_leg_state)
  = newTicket 0 "" one_leg_state :: history one_leg_state /\
  (combinedProbability (legs one_leg_state) >? Fin 0)%js = true /\
  getCombinedPayout one_leg_state =
  VString (toFixed (calculatePayoutOdds
                      (Math.min (combinedProbability (legs one_leg_state)) (Fin 0.25))
                      DEFAULT_HOUSE_EDGE) 2).
Proof.
  assert (H : history (placeBet 0 "" one_leg_state)
              = newTicket 0 "" one_leg_state :: history one_leg_state)
    by (rewrite one_leg_state_accepted; reflexivity).
  assert (Hpos : (combinedProbability (legs one_leg_state) >? Fin 0)%js = true).
  { rewrite (proj1 one_leg_state_fields), capped_leg_probability.
    apply gtb_Fin_true. lra. }
  split; [exact H |]. split; [exact Hpos |].
  exact (proj1 (proj1 (ticket_odds_round_trip 0%Z ""%string one_leg_state
                         (newTicket 0 "" one_leg_state) H) Hpos)).
Defined.

(** ** The stake *)

(** C6, as stated, fails: with a stake of -100, which is not positive, the
    one-leg parlay is accepted and a ticket with stake -100 is recorded. *)
Lemma negative_stake_accepted :
  (betAmount negative_stake_state >? Fin 0)%js = false /\
  exists t : Ticket.t,
    history (placeBet 0 "" negative_stake_state) = [t] /\
    Ticket.betAmount t = Fin (-100).
Proof.
  destruct one_leg_state_fields as (Hl & _ & Hh).
  split.
  - rewrite negative_stake_state_eq. apply gtb_Fin_false. lra.
  - exists (newTicket 0 "" negative_stake_state).
    rewrite (placeBet_accept_Fin 0 "" negative_stake_state (0.25 * 0.85 * 1.0) (-100)).
    + cbn [history setLegs setHistory setError]. rewrite negative_stake_state_eq.
      cbn [history setBetAmount]. rewrite Hh. split; reflexivity.
    + rewrite negative_stake_state_eq. cbn [legs setBetAmount].
      rewrite Hl. discriminate.
    + rewrite getCombinedProb_legs, negative_stake_state_eq.
      cbn [legs setBetAmount]. rewrite Hl. apply capped_leg_probability.
    + lra.
    + rewrite negative_stake_state_eq. reflexivity.
    + lra.
Qed.

(** C6, amended: [placeBet] does not look at the sign of the stake.  A ticket
    carries the stake as entered, and the only thing known of it is that it
    passed the exposure gate (stake times the payout odds of the combined
    probability is not greater than 2000); whenever the parlay is non-empty
    with a combined probability in (0, 0.25], every stake that is zero or
    negative is accepted and recorded. *)
Theorem stake_sign_unchecked :
  (forall (now : Z) (iso : string) (s : State) (t : Ticket.t),
      history (placeBet now iso s) = t :: history s ->
      Ticket.betAmount t = betAmount s /\
      (Ticket.betAmount t
       * calculatePayoutOdds (combinedProbability (Ticket.legs t)) DEFAULT_HOUSE_EDGE
       >? Fin 2000)%js = false) /\
  (forall (now : Z) (iso : string) (s : State) (c b : R),
      legs s <> [] ->
      getCombinedProb s = Fin c -> 0 < c <= 0.25 ->
      betAmount s = Fin b -> b <= 0 ->
      exists t : Ticket.t,
        history (placeBet now iso s) = t :: history s /\
        Ticket.betAmount t = Fin b).
Proof.
  split.
  - intros now iso s t H.
    destruct (placeBet_recorded now iso s t H) as (-> & _ & _ & He).
    rewrite cap_value in He. split; [reflexivity | exact He].
  - intros now iso s c b Hne Hc Hr Hb Hneg.
    exists (newTicket now iso s).
    rewrite (placeBet_accept_Fin now iso s c b Hne Hc Hr Hb).
    + split; [reflexivity | exact Hb].
    + assert (Ho : 0 <= 1 / c * (1 - 0.07)).
      { apply Rmult_le_pos; [| lra].
        unfold Rdiv. rewrite Rmult_1_l. left. apply Rinv_0_lt_compat. lra. }
      nra.
Qed.

Lemma stake_sign_unchecked_witness :
  legs (setBetAmount (Fin 0) one_leg_state) <> [] /\
  getCombinedProb (setBetAmount (Fin 0) one_leg_state) = Fin (0.25 * 0.85 * 1.0) /\
  0 < 0.25 * 0.85 * 1.0 <= 0.25 /\
  betAmount (setBetAmount (Fin 0) one_leg_state) = Fin 0 /\
  0 <= 0 /\
  exists t : Ticket.t,
    history (placeBet 0 "" (setBetAmount (Fin 0) one_leg_state))
    = t :: history (setBetAmount (Fin 0) one_leg_state) /\
    Ticket.betAmount t = Fin 0.
Proof.
  assert (H1 : legs (setBetAmount (Fin 0) one_leg_state) <> [])
    by (rewrite one_leg_state_eq; discriminate).
  assert (H2 : getCombinedProb (setBetAmount (Fin 0) one_leg_state)
               = Fin (0.25 * 0.85 * 1.0))
    by (rewrite one_leg_state_eq; apply capped_leg_probability).
  assert (H3 : 0 < 0.25 * 0.85 * 1.0 <= 0.25) by lra.
  assert (H4 : betAmount (setBetAmount (Fin 0) one_leg_state) = Fin 0) by reflexivity.
  assert (H5 : 0 <= 0) by lra.
  repeat (split; [assumption |]).
  exact (proj2 stake_sign_unchecked 0%Z ""%string
           (setBetAmount (Fin 0) one_leg_state) _ _ H1 H2 H3 H4 H5).
Defined.

(** ** Two legs under the per-leg cap *)

(** Pressing "Add to Parlay" twice on the reference inputs gives two legs at
    the cap, and "Place Bet" is then refused at the probability gate. *)
Lemma two_reference_legs_rejected :
  legs (run (reference_events ++ [ClickAddLeg])) = [capped_leg; capped_leg] /\
  run (reference_events ++ [ClickAddLeg; ClickPlaceBet 0 ""]) =
  setError PROBABILITY_CAP_ERROR (run (reference_events ++ [ClickAddLeg])).
Proof.
  assert (E : legs (run (reference_events ++ [ClickAddLeg]))
              = [capped_leg; capped_leg]).
  { rewrite run_snoc. fold one_leg_state. rewrite one_leg_state_eq. cbn [step].
    rewrite addLeg_accepted by apply reference_range_valid.
    cbn [selectedAsset timeframe lowerBound upperBound livePrice legs
         setLegs setError setUpperBound setLowerBound setLivePrice initialState].
    rewrite reference_probability. reflexivity. }
  split; [exact E |].
  replace (reference_events ++ [ClickAddLeg; ClickPlaceBet 0 ""])
    with ((reference_events ++ [ClickAddLeg]) ++ [ClickPlaceBet 0 ""])
    by (rewrite <- app_assoc; reflexivity).
  rewrite run_snoc. cbn [step].
  apply placeBet_probability_cap.
  - rewrite E. discriminate.
  - rewrite getCombinedProb_legs, E.
    rewrite (combinedProbability_pair capped_leg capped_leg 0.25)
      by (try reflexivity; lra).
    apply gtb_Fin_true. lra.
Qed.

(** C10: two legs of probability [p] in (0, 0.25] combine to
    [0.85 * 1.3 * p = 1.105 * p], more than [p]; two legs at 0.25 combine to
    0.27625, above the cap that each leg respects; and every parlay of legs
    within the per-leg cap whose combined probability is above 0.25 is
    rejected by [placeBet] with the probability-cap reason. *)
Theorem two_legs_exceed_cap :
  (forall (leg1 leg2 : Leg.t) (p : R),
      Leg.probability leg1 = Fin p -> Leg.probability leg2 = Fin p ->
      0 < p <= 0.25 ->
      combinedProbability [leg1; leg2] = Fin (0.85 * 1.3 * p) /\
      0.85 * 1.3 * p = 1.105 * p /\
      (Fin (1.105 * p) >? Fin p)%js = true) /\
  (exists parlay : list Leg.t,
      Forall within_leg_cap parlay /\
      combinedProbability parlay = Fin 0.27625 /\
      (combinedProbability parlay >? Fin 0.25)%js = true) /\
  (forall (now : Z) (iso : string) (s : State),
      Forall within_leg_cap (legs s) ->
      (combinedProbability (legs s) >? Fin 0.25)%js = true ->
      placeBet now iso s = setError PROBABILITY_CAP_ERROR s /\
      history (placeBet now iso s) = history s).
Proof.
  split; [| split].
  - intros leg1 leg2 p H1 H2 Hp.
    rewrite (combinedProbability_pair leg1 leg2 p H1 H2) by lra.
    split; [f_equal; lra |]. split; [lra |].
    apply gtb_Fin_true. lra.
  - exists [capped_leg; capped_leg].
    assert (E : combinedProbability [capped_leg; capped_leg] = Fin 0.27625).
    { rewrite (combinedProbability_pair capped_leg capped_leg 0.25) by
        (try reflexivity; lra).
      f_equal. lra. }
    split; [| split].
    + repeat constructor; exists 0.25; (split; [reflexivity | lra]).
    + exact E.
    + rewrite E. apply gtb_Fin_true. lra.
  - intros now iso s _ Hp.
    assert (Hne : legs s <> []).
    { intros Hnil. rewrite Hnil, combinedProbability_nil in Hp.
      apply gtb_Fin_true in Hp. lra. }
    rewrite (placeBet_probability_cap now iso s Hne Hp).
    split; reflexivity.
Qed.

Lemma two_legs_exceed_cap_witness :
  Leg.probability capped_leg = Fin 0.25 /\
  0 < 0.25 <= 0.25 /\
  combinedProbability [capped_leg; capped_leg] = Fin (0.85 * 1.3 * 0.25).
Proof.
  assert (H1 : Leg.probability capped_leg = Fin 0.25) by reflexivity.
  assert (H2 : 0 < 0.25 <= 0.25) by lra.
  split; [exact H1 |]. split; [exact H2 |].
  exact (proj1 (proj1 two_legs_exceed_cap capped_leg capped_leg 0.25 H1 H1 H2)).
Defined.

(** ** The odds engine *)

(** C9: for [p] in (0, 1] and [e] in [0, 1),
    [calculatePayoutOdds p e = (1 / p) * (1 - e)]; it is strictly decreasing
    in [p] for a fixed [e] and strictly decreasing in [e] for a fixed [p]. *)
Theorem payout_odds_strictly_decreasing :
  (forall p e : R,
      0 < p <= 1 -> 0 <= e < 1 ->
      calculatePayoutOdds (Fin p) (Fin e) = Fin ((1 / p) * (1 - e))) /\
  (forall e p1 p2 : R,
      0 <= e < 1 -> 0 < p1 -> p1 < p2 -> p2 <= 1 ->
      (calculatePayoutOdds (Fin p2) (Fin e)
       <? calculatePayoutOdds (Fin p1) (Fin e))%js = true) /\
  (forall p e1 e2 : R,
      0 < p <= 1 -> 0 <= e1 -> e1 < e2 -> e2 < 1 ->
      (calculatePayoutOdds (Fin p) (Fin e2)
       <? calculatePayoutOdds (Fin p) (Fin e1))%js = true).
Proof.
  split; [| split].
  - intros p e Hp He. apply calculatePayoutOdds_Fin. lra.
  - intros e p1 p2 He H1 H12 H2.
    rewrite !calculatePayoutOdds_Fin by lra.
    apply Rltb_true. apply Rmult_lt_compat_r; [lra |].
    unfold Rdiv. rewrite !Rmult_1_l.
    apply Rinv_lt_contravar; [apply Rmult_lt_0_compat; lra | exact H12].
  - intros p e1 e2 Hp H1 H12 H2.
    rewrite !calculatePayoutOdds_Fin by lra.
    apply Rltb_true. apply Rmult_lt_compat_l; [| lra].
    unfold Rdiv. rewrite Rmult_1_l. apply Rinv_0_lt_compat. lra.
Qed.

Lemma payout_odds_strictly_decreasing_witness :
  0 <= 0.07 < 1 /\ 0 < 0.1 /\ 0.1 < 0.25 /\ 0.25 <= 1 /\
  (calculatePayoutOdds (Fin 0.25) (Fin 0.07)
   <? calculatePayoutOdds (Fin 0.1) (Fin 0.07))%js = true.
Proof.
  assert (He : 0 <= 0.07 < 1) by lra.
  assert (H1 : 0 < 0.1) by lra.
  assert (H12 : 0.1 < 0.25) by lra.
  assert (H2 : 0.25 <= 1) by lra.
  repeat (split; [assumption |]).
  exact (proj1 (proj2 payout_odds_strictly_decreasing) 0.07 0.1 0.25 He H1 H12 H2).
Defined.

(** * Further properties of the code *)

(** ** The range validator on all inputs *)

Lemma signed_not_Fin (x w : R) : JS.signed x PInf NaN NInf <> Fin w.
Proof.
  unfold JS.signed. destruct (total_order_T x 0) as [[H | H] | H]; discriminate.
Qed.

Lemma div_Fin_inv (a b : num) (w : R) :
  (a / b)%js = Fin w ->
  (exists x y, a = Fin x /\ b = Fin y /\ y <> 0 /\ w = x / y) \/
  (exists x, a = Fin x /\ (b = PInf \/ b = NInf) /\ w = 0).
Proof.
  destruct a as [x | | |], b as [y | | |]; simpl; intros H; try discriminate.
  - destruct (Req_dec_T y 0) as [Hy | Hy].
    + exfalso. exact (signed_not_Fin _ _ H).
    + left. exists x, y. injection H as <-. auto.
  - right. exists x. injection H as <-. auto.
  - right. exists x. injection H as <-. auto.
  - destruct (Rlt_dec y 0); discriminate.
  - destruct (Rlt_dec y 0); discriminate.
Qed.

Lemma sub_Fin_inv (a b : num) (x : R) :
  (a - b)%js = Fin x -> exists af bf, a = Fin af /\ b = Fin bf /\ x = af - bf.
Proof.
  destruct a as [af | | |], b as [bf | | |]; simpl; intros H; try discriminate.
  exists af, bf. injection H as <-. repeat split; lra.
Qed.

Lemma isRangeValid_numbers :
  forall lowerBound upperBound price : num,
    isRangeValid lowerBound upperBound price = true <->
    exists l u p : R,
      lowerBound = Fin l /\ upperBound = Fin u /\ price = Fin p /\
      p <> 0 /\ 0.01 <= (u - l) / p <= 0.30.
Proof.
  intros lo up price. rewrite isRangeValid_spec. split.
  - intros (w & Hw & Hb).
    destruct (div_Fin_inv _ _ _ Hw)
      as [(x & p & Hx & -> & Hp & ->) | (x & _ & _ & ->)]; [| lra].
    destruct (sub_Fin_inv _ _ _ Hx) as (u & l & -> & -> & ->).
    exists l, u, p. auto.
  - intros (l & u & p & -> & -> & -> & Hp & Hb).
    exists ((u - l) / p). split; [| exact Hb].
    change (Fin u - Fin l)%js with (Fin (u + - l)).
    rewrite div_Fin by exact Hp. reflexivity.
Qed.

(** X1: the validator accepts only finite bounds against a finite non-zero
    price: it is true exactly when all three are numbers, the price is not
    0, and the quotient is between 0.01 and 0.30.  [NaN] or an infinity
    anywhere is refused. *)
Theorem isRangeValid_finite :
  forall lowerBound upperBound price : num,
    isRangeValid lowerBound upperBound price = true <->
    exists l u p : R,
      lowerBound = Fin l /\ upperBound = Fin u /\ price = Fin p /\
      p <> 0 /\ 0.01 <= (u - l) / p <= 0.30.
Proof.
  intros lo up price. rewrite isRangeValid_spec. split.
  - intros (w & Hw & Hb).
    destruct (div_Fin_inv _ _ _ Hw)
      as [(x & p & Hx & -> & Hp & ->) | (x & _ & _ & ->)]; [| lra].
    destruct (sub_Fin_inv _ _ _ Hx) as (u & l & -> & -> & ->).
    exists l, u, p. auto.
  - intros (l & u & p & -> & -> & -> & Hp & Hb).
    exists ((u - l) / p). split; [| exact Hb].
    change (Fin u - Fin l)%js with (Fin (u + - l)).
    rewrite div_Fin by exact Hp. reflexivity.
Qed.

Lemma isRangeValid_finite_witness :
  exists l u p : R,
    Fin 49500 = Fin l /\ Fin 50500 = Fin u /\ Fin 50000 = Fin p /\
    p <> 0 /\ 0.01 <= (u - l) / p <= 0.30.
Proof.
  exact (proj1 (isRangeValid_finite (Fin 49500) (Fin 50500) (Fin 50000))
               reference_range_valid).
Defined.

(** X2: with a positive price a valid range has [lower < upper]; with a
    negative price the validator accepts only inverted ranges,
    [upper < lower]. *)
Theorem isRangeValid_orientation :
  forall l u p : R,
    isRangeValid (Fin l) (Fin u) (Fin p) = true ->
    (0 < p -> l < u) /\ (p < 0 -> u < l).
Proof.
  intros l u p H.
  apply isRangeValid_numbers in H.
  destruct H as (l' & u' & p' & Hl & Hu & Hp & Hne & Hlo & Hhi).
  injection Hl as <-. injection Hu as <-. injection Hp as <-.
  split; intros Hs.
  - assert (Hq : 0 < (u - l) / p) by lra.
    assert (Hm : (u - l) / p * p = u - l) by (field; lra).
    assert (0 < (u - l) / p * p) by (apply Rmult_lt_0_compat; assumption).
    lra.
  - assert (Hq : 0 < (u - l) / p) by lra.
    assert (Hm : (u - l) / p * - p = l - u) by (field; lra).
    assert (0 < (u - l) / p * - p) by (apply Rmult_lt_0_compat; lra).
    lra.
Qed.

Lemma isRangeValid_orientation_witness :
  isRangeValid (Fin 10) (Fin 5) (Fin (-100)) = true /\
  ((-100 < 0) -> 5 < 10).
Proof.
  assert (H : isRangeValid (Fin 10) (Fin 5) (Fin (-100)) = true).
  { apply isRangeValid_numbers. exists 10, 5, (-100).
    repeat split; try reflexivity; lra. }
  split; [exact H |].
  exact (proj2 (isRangeValid_orientation 10 5 (-100) H)).
Defined.

(** ** The probability engine on all inputs *)

Lemma min_not_above (a : num) (c : R) : (Math.min a (Fin c) >? Fin c)%js = false.
Proof.
  destruct a as [x | | |]; simpl; try reflexivity.
  - unfold JS.Rltb. destruct (Rlt_dec x c); apply gtb_Fin_false; lra.
  - apply gtb_Fin_false. lra.
Qed.

Lemma rawProbability_nested (sd l u l' u' p : R) :
  0 < sd -> l' <= l -> u <= u' ->
  rawProbability sd l u p <= rawProbability sd l' u' p.
Proof.
  intros Hsd Hl Hu. unfold rawProbability.
  pose proof sqrt_PI_8_pos as Hk.
  assert (Hi : 0 < / sd) by (apply Rinv_0_lt_compat, Hsd).
  assert (H1 : Math.tanh_sat (sqrt (PI / 8) * ((u - p) / sd))
               <= Math.tanh_sat (sqrt (PI / 8) * ((u' - p) / sd))).
  { apply tanh_sat_monotone. apply Rmult_le_compat_l; [lra |].
    unfold Rdiv. apply Rmult_le_compat_r; lra. }
  assert (H2 : Math.tanh_sat (sqrt (PI / 8) * ((l' - p) / sd))
               <= Math.tanh_sat (sqrt (PI / 8) * ((l - p) / sd))).
  { apply tanh_sat_monotone. apply Rmult_le_compat_l; [lra |].
    unfold Rdiv. apply Rmult_le_compat_r; lra. }
  lra.
Qed.

(** A range that contains the price loses probability when the standard
    deviation grows. *)
Lemma rawProbability_spread (sd1 sd2 l u p : R) :
  0 < sd1 -> sd1 <= sd2 -> l <= p <= u ->
  rawProbability sd2 l u p <= rawProbability sd1 l u p.
Proof.
  intros Hsd Hle Hp. unfold rawProbability.
  pose proof sqrt_PI_8_pos as Hk.
  assert (Hi : / sd2 <= / sd1) by (apply Rinv_le_contravar; lra).
  assert (Hi2 : 0 < / sd2) by (apply Rinv_0_lt_compat; lra).
  assert (H1 : Math.tanh_sat (sqrt (PI / 8) * ((u - p) / sd2))
               <= Math.tanh_sat (sqrt (PI / 8) * ((u - p) / sd1))).
  { apply tanh_sat_monotone. apply Rmult_le_compat_l; [lra |].
    unfold Rdiv. apply Rmult_le_compat_l; lra. }
  assert (H2 : Math.tanh_sat (sqrt (PI / 8) * ((l - p) / sd1))
               <= Math.tanh_sat (sqrt (PI / 8) * ((l - p) / sd2))).
  { apply tanh_sat_monotone. apply Rmult_le_compat_l; [lra |].
    unfold Rdiv.
    replace ((l - p) * / sd1) with (- ((p - l) * / sd1)) by lra.
    replace ((l - p) * / sd2) with (- ((p - l) * / sd2)) by lra.
    apply Ropp_le_contravar. apply Rmult_le_compat_l; lra. }
  lra.
Qed.

(** X3: whatever its arguments are (numbers, infinities or [NaN]),
    [calculateWinProbability] never returns a value above 0.25. *)
Theorem win_probability_never_above_cap :
  forall (assetKey : Asset) (lowerBound upperBound timeframeHours price : num),
    (calculateWinProbability assetKey lowerBound upperBound timeframeHours price
     >? Fin 0.25)%js = false.
Proof.
  intros assetKey lo up h price. unfold calculateWinProbability.
  destruct (normalCDF _ - normalCDF _)%js as [x | | |]; simpl;
    try reflexivity.
  - unfold JS.Rltb. destruct (Rlt_dec x 0.25); apply gtb_Fin_false; lra.
  - apply gtb_Fin_false. lra.
Qed.

(** X4: widening a range never lowers its probability: for a positive price
    and timeframe, if [lower' <= lower] and [upper <= upper'] then the
    probability of [lower', upper'] is at least that of [lower, upper]. *)
Theorem win_probability_nested_ranges :
  forall (assetKey : Asset) (h p l u l' u' : R),
    0 < h -> 0 < p -> l' <= l -> u <= u' ->
    (calculateWinProbability assetKey (Fin l) (Fin u) (Fin h) (Fin p)
     <=? calculateWinProbability assetKey (Fin l') (Fin u') (Fin h) (Fin p))%js
    = true.
Proof.
  intros a h p l u l' u' Hh Hp Hl Hu.
  destruct (calculateTimeScaledVolatility_pos a h (Fin p) Hh) as (v & Hv & Hvpos).
  rewrite !(calculateWinProbability_raw a (Fin h) _ _ p v Hv Hvpos Hp).
  apply leb_Fin_true. apply Rle_min_compat_r.
  apply rawProbability_nested; try assumption.
  apply Rmult_lt_0_compat; assumption.
Qed.

Lemma win_probability_nested_ranges_witness :
  0 < 24 /\ 0 < 50000 /\ 49000 <= 49500 /\ 50500 <= 51000 /\
  (calculateWinProbability BTC (Fin 49500) (Fin 50500) (Fin 24) (Fin 50000)
   <=? calculateWinProbability BTC (Fin 49000) (Fin 51000) (Fin 24) (Fin 50000))%js
  = true.
Proof.
  assert (H1 : 0 < 24) by lra.
  assert (H2 : 0 < 50000) by lra.
  assert (H3 : 49000 <= 49500) by lra.
  assert (H4 : 50500 <= 51000) by lra.
  repeat (split; [assumption |]).
  exact (win_probability_nested_ranges BTC 24 50000 49500 50500 49000 51000
           H1 H2 H3 H4).
Defined.

(** X5: pricing depends on the bounds only relative to the price: scaling
    the price and both bounds by the same positive factor changes neither
    the validator's answer nor the probability. *)
Theorem pricing_scale_invariant :
  forall (assetKey : Asset) (h : num) (k l u p : R),
    0 < k -> 0 < p ->
    isRangeValid (Fin (k * l)) (Fin (k * u)) (Fin (k * p))
    = isRangeValid (Fin l) (Fin u) (Fin p) /\
    calculateWinProbability assetKey (Fin (k * l)) (Fin (k * u)) h (Fin (k * p))
    = calculateWinProbability assetKey (Fin l) (Fin u) h (Fin p).
Proof.
  intros a h k l u p Hk Hp.
  assert (Hkp : 0 < k * p) by (apply Rmult_lt_0_compat; assumption).
  split.
  - unfold isRangeValid.
    change (Fin (k * u) - Fin (k * l))%js with (Fin (k * u + - (k * l))).
    change (Fin u - Fin l)%js with (Fin (u + - l)).
    rewrite !div_Fin by lra.
    replace ((k * u + - (k * l)) / (k * p)) with ((u + - l) / p) by (field; lra).
    reflexivity.
  - unfold calculateWinProbability.
    change (calculateTimeScaledVolatility a h (Fin (k * p)))
      with (calculateTimeScaledVolatility a h (Fin p)).
    destruct (calculateTimeScaledVolatility a h (Fin p)) as [v | | |].
    + change (Fin (k * p) * Fin v)%js with (Fin (k * p * v)).
      change (Fin p * Fin v)%js with (Fin (p * v)).
      change (Fin (k * u) - Fin (k * p))%js with (Fin (k * u + - (k * p))).
      change (Fin (k * l) - Fin (k * p))%js with (Fin (k * l + - (k * p))).
      change (Fin u - Fin p)%js with (Fin (u + - p)).
      change (Fin l - Fin p)%js with (Fin (l + - p)).
      destruct (Req_dec_T v 0) as [-> | Hv].
      * simpl. rewrite !Rmult_0_r.
        destruct (Req_dec_T 0 0) as [_ | Hne]; [| lra].
        replace (JS.signed (k * u + - (k * p)) PInf NaN NInf)
          with (JS.signed (u + - p) PInf NaN NInf).
        2:{ unfold JS.signed.
            destruct (total_order_T (u + - p) 0) as [[H | H] | H];
              destruct (total_order_T (k * u + - (k * p)) 0) as [[H' | H'] | H'];
              try reflexivity; exfalso; nra. }
        replace (JS.signed (k * l + - (k * p)) PInf NaN NInf)
          with (JS.signed (l + - p) PInf NaN NInf).
        2:{ unfold JS.signed.
            destruct (total_order_T (l + - p) 0) as [[H | H] | H];
              destruct (total_order_T (k * l + - (k * p)) 0) as [[H' | H'] | H'];
              try reflexivity; exfalso; nra. }
        reflexivity.
      * assert (Hpv : p * v <> 0) by (apply Rmult_integral_contrapositive_currified; lra).
        assert (Hkpv : k * p * v <> 0)
          by (apply Rmult_integral_contrapositive_currified; lra).
        rewrite !div_Fin by assumption.
        replace ((k * u + - (k * p)) / (k * p * v)) with ((u + - p) / (p * v))
          by (field; repeat split; lra).
        replace ((k * l + - (k * p)) / (k * p * v)) with ((l + - p) / (p * v))
          by (field; repeat split; lra).
        reflexivity.
    + assert (E1 : (Fin (k * p) * PInf)%js = PInf)
        by (simpl; apply signed_pos; assumption).
      assert (E2 : (Fin p * PInf)%js = PInf)
        by (simpl; apply signed_pos; assumption).
      rewrite E1, E2. reflexivity.
    + assert (E1 : (Fin (k * p) * NInf)%js = NInf)
        by (simpl; apply signed_pos; assumption).
      assert (E2 : (Fin p * NInf)%js = NInf)
        by (simpl; apply signed_pos; assumption).
      rewrite E1, E2. reflexivity.
    + reflexivity.
Qed.

Lemma pricing_scale_invariant_witness :
  0 < 2 /\ 0 < 50000 /\
  calculateWinProbability BTC (Fin (2 * 49500)) (Fin (2 * 50500)) (Fin 24)
                          (Fin (2 * 50000))
  = calculateWinProbability BTC (Fin 49500) (Fin 50500) (Fin 24) (Fin 50000).
Proof.
  assert (H1 : 0 < 2) by lra.
  assert (H2 : 0 < 50000) by lra.
  split; [exact H1 |]. split; [exact H2 |].
  exact (proj2 (pricing_scale_invariant BTC (Fin 24) 2 49500 50500 50000 H1 H2)).
Defined.


(** ** The CDF approximation *)



(** ** Volatility over the registries *)

(** The volatility of a registry timeframe is the asset's coefficient times
    a factor, bracketed here between decimals. *)
Lemma registry_factor (tf : Timeframe) :
  exists g : R,
    (forall (assetKey : Asset) (price : num) (v : R),
        volatility (ASSETS assetKey) = Fin v ->
        calculateTimeScaledVolatility assetKey (TIMEFRAMES tf) price = Fin (v * g)) /\
    match tf with
    | tf_1_hour => 0.26 <= g <= 0.27
    | tf_4_hour => 0.48 <= g <= 0.50
    | tf_24_hour => 1.1 <= g <= 1.1
    | tf_48_hour => 1.41 <= g <= 1.42
    | tf_3_day => 1.73 <= g <= 1.74
    | tf_7_day => 2.64 <= g <= 2.65
    | tf_14_day => 3.74 <= g <= 3.75
    | tf_30_day => 5.47 <= g <= 5.48
    end.
Proof.
  assert (Hgen : forall h m : R,
             0 < h ->
             (if (Fin h <=? Fin 1)%js then Fin 1.3
              else if (Fin h <=? Fin 4)%js then Fin 1.2
              else if (Fin h <=? Fin 24)%js then Fin 1.1 else Fin 1.0) = Fin m ->
             forall (assetKey : Asset) (price : num) (v : R),
               volatility (ASSETS assetKey) = Fin v ->
               calculateTimeScaledVolatility assetKey (Fin h) price
               = Fin (v * (sqrt (h / 24) * m))).
  { intros h m Hh Hm a price v Hv. unfold calculateTimeScaledVolatility.
    rewrite Hv, Hm. rewrite div_Fin by lra.
    rewrite sqrt_Fin by (apply Rlt_le, Rdiv_lt_0_compat; lra).
    simpl. f_equal. lra. }
  destruct tf; cbn [TIMEFRAMES].
  - exists (sqrt (1 / 24) * 1.3). split.
    + apply Hgen; [lra |]. rewrite (proj2 (leb_Fin_true 1 1)) by lra. reflexivity.
    + pose proof (sqrt_between 0.2 0.205 (1 / 24)). lra.
  - exists (sqrt (4 / 24) * 1.2). split.
    + apply Hgen; [lra |]. rewrite (proj2 (leb_Fin_false 4 1)) by lra.
      rewrite (proj2 (leb_Fin_true 4 4)) by lra. reflexivity.
    + pose proof (sqrt_between 0.4 0.41 (4 / 24)). lra.
  - exists (sqrt (24 / 24) * 1.1). split.
    + apply Hgen; [lra |]. rewrite (proj2 (leb_Fin_false 24 1)) by lra.
      rewrite (proj2 (leb_Fin_false 24 4)) by lra.
      rewrite (proj2 (leb_Fin_true 24 24)) by lra. reflexivity.
    + pose proof (sqrt_between 1 1 (24 / 24)). lra.
  - exists (sqrt (48 / 24) * 1.0). split.
    + apply Hgen; [lra |]. rewrite (proj2 (leb_Fin_false 48 1)) by lra.
      rewrite (proj2 (leb_Fin_false 48 4)) by lra.
      rewrite (proj2 (leb_Fin_false 48 24)) by lra. reflexivity.
    + pose proof (sqrt_between 1.41 1.42 (48 / 24)). lra.
  - exists (sqrt (72 / 24) * 1.0). split.
    + apply Hgen; [lra |]. rewrite (proj2 (leb_Fin_false 72 1)) by lra.
      rewrite (proj2 (leb_Fin_false 72 4)) by lra.
      rewrite (proj2 (leb_Fin_false 72 24)) by lra. reflexivity.
    + pose proof (sqrt_between 1.73 1.74 (72 / 24)). lra.
  - exists (sqrt (168 / 24) * 1.0). split.
    + apply Hgen; [lra |]. rewrite (proj2 (leb_Fin_false 168 1)) by lra.
      rewrite (proj2 (leb_Fin_false 168 4)) by lra.
      rewrite (proj2 (leb_Fin_false 168 24)) by lra. reflexivity.
    + pose proof (sqrt_between 2.64 2.65 (168 / 24)). lra.
  - exists (sqrt (336 / 24) * 1.0). split.
    + apply Hgen; [lra |]. rewrite (proj2 (leb_Fin_false 336 1)) by lra.
      rewrite (proj2 (leb_Fin_false 336 4)) by lra.
      rewrite (proj2 (leb_Fin_false 336 24)) by lra. reflexivity.
    + pose proof (sqrt_between 3.74 3.75 (336 / 24)). lra.
  - exists (sqrt (720 / 24) * 1.0). split.
    + apply Hgen; [lra |]. rewrite (proj2 (leb_Fin_false 720 1)) by lra.
      rewrite (proj2 (leb_Fin_false 720 4)) by lra.
      rewrite (proj2 (leb_Fin_false 720 24)) by lra. reflexivity.
    + pose proof (sqrt_between 5.47 5.48 (720 / 24)). lra.
Qed.

Lemma registry_volatility_increasing (assetKey : Asset) (tf1 tf2 : Timeframe)
      (price1 price2 : num) :
  hours tf1 < hours tf2 ->
  exists v1 v2 : R,
    calculateTimeScaledVolatility assetKey (TIMEFRAMES tf1) price1 = Fin v1 /\
    calculateTimeScaledVolatility assetKey (TIMEFRAMES tf2) price2 = Fin v2 /\
    0 < v1 < v2.
Proof.
  intros Hh.
  destruct (volatility_pos assetKey) as (v & Hv & Hvpos).
  destruct (registry_factor tf1) as (g1 & E1 & B1).
  destruct (registry_factor tf2) as (g2 & E2 & B2).
  exists (v * g1), (v * g2).
  split; [apply E1, Hv |]. split; [apply E2, Hv |].
  assert (Hg : 0 < g1 < g2)
    by (destruct tf1, tf2; simpl in Hh; lra).
  split; [apply Rmult_lt_0_compat; lra | apply Rmult_lt_compat_l; lra].
Qed.

(** X7: over the timeframes of the registry the time-scaled volatility is a
    positive number that grows strictly with the number of hours (the
    short-horizon multipliers 1.3, 1.2, 1.1 do not reverse the order of the
    registry entries). *)
Theorem registry_volatility_strictly_increasing :
  forall (assetKey : Asset) (tf1 tf2 : Timeframe) (price1 price2 : num),
    hours tf1 < hours tf2 ->
    (Fin 0 <? calculateTimeScaledVolatility assetKey (TIMEFRAMES tf1) price1)%js
    = true /\
    (calculateTimeScaledVolatility assetKey (TIMEFRAMES tf1) price1
     <? calculateTimeScaledVolatility assetKey (TIMEFRAMES tf2) price2)%js = true.
Proof.
  intros a tf1 tf2 p1 p2 Hh.
  destruct (registry_volatility_increasing a tf1 tf2 p1 p2 Hh)
    as (v1 & v2 & -> & -> & H1 & H2).
  split; apply Rltb_true; assumption.
Qed.

Lemma registry_volatility_strictly_increasing_witness :
  hours tf_1_hour < hours tf_4_hour /\
  (calculateTimeScaledVolatility BTC (TIMEFRAMES tf_1_hour) (Fin 50000)
   <? calculateTimeScaledVolatility BTC (TIMEFRAMES tf_4_hour) (Fin 50000))%js
  = true.
Proof.
  assert (H : hours tf_1_hour < hours tf_4_hour) by (simpl; lra).
  split; [exact H |].
  exact (proj2 (registry_volatility_strictly_increasing
                  BTC tf_1_hour tf_4_hour (Fin 50000) (Fin 50000) H)).
Defined.

(** X8: between registry timeframes the multipliers do reverse the order:
    for every number of hours above 1 and up to 1.17 the volatility is lower
    than at one hour (the multiplier drops from 1.3 to 1.2). *)
Theorem volatility_drops_after_tier :
  forall (assetKey : Asset) (price : num) (h : R),
    1 < h <= 1.17 ->
    (calculateTimeScaledVolatility assetKey (Fin h) price
     <? calculateTimeScaledVolatility assetKey (Fin 1) price)%js = true.
Proof.
  intros a price h Hh.
  destruct (volatility_pos a) as (v & Hv & Hvpos).
  unfold calculateTimeScaledVolatility. rewrite Hv.
  rewrite (proj2 (leb_Fin_false h 1)) by lra.
  rewrite (proj2 (leb_Fin_true h 4)) by lra.
  rewrite (proj2 (leb_Fin_true 1 1)) by lra.
  rewrite !div_Fin by lra.
  rewrite !sqrt_Fin by lra. simpl.
  apply Rltb_true.
  pose proof (sqrt_between 0.2041 0.205 (1 / 24)).
  pose proof (sqrt_between 0.2 0.2208 (1.17 / 24)).
  assert (Hm : sqrt (h / 24) <= sqrt (1.17 / 24)) by (apply sqrt_le_1_alt; lra).
  assert (Hlt : sqrt (h / 24) * 1.2 < sqrt (1 / 24) * 1.3) by lra.
  rewrite !Rmult_assoc. apply Rmult_lt_compat_l; assumption.
Qed.

Lemma volatility_drops_after_tier_witness :
  1 < 1.1 <= 1.17 /\
  (calculateTimeScaledVolatility BTC (Fin 1.1) (Fin 50000)
   <? calculateTimeScaledVolatility BTC (Fin 1) (Fin 50000))%js = true.
Proof.
  assert (H : 1 < 1.1 <= 1.17) by lra.
  split; [exact H |].
  exact (volatility_drops_after_tier BTC (Fin 50000) 1.1 H).
Defined.

Lemma volatility_factor (h : R) :
  0 < h ->
  exists g : R,
    0 < g /\
    forall (assetKey : Asset) (price : num) (v : R),
      volatility (ASSETS assetKey) = Fin v ->
      calculateTimeScaledVolatility assetKey (Fin h) price = Fin (v * g).
Proof.
  intros Hh.
  assert (Hs : 0 < sqrt (h / 24)) by (apply sqrt_lt_R0, Rdiv_lt_0_compat; lra).
  assert (Hm : exists m, 0 < m /\
             (if (Fin h <=? Fin 1)%js then Fin 1.3
              else if (Fin h <=? Fin 4)%js then Fin 1.2
              else if (Fin h <=? Fin 24)%js then Fin 1.1 else Fin 1.0) = Fin m).
  { destruct (Fin h <=? Fin 1)%js; [| destruct (Fin h <=? Fin 4)%js;
                                       [| destruct (Fin h <=? Fin 24)%js]];
      eexists; (split; [| reflexivity]); lra. }
  destruct Hm as (m & Hmpos & Hm).
  exists (sqrt (h / 24) * m). split; [apply Rmult_lt_0_compat; assumption |].
  intros a price v Hv. unfold calculateTimeScaledVolatility.
  rewrite Hv, Hm. rewrite div_Fin by lra. rewrite sqrt_Fin by lra.
  simpl. f_equal. lra.
Qed.

(** X9: a range that contains the price gets no more probable when the
    standard deviation grows: neither with a longer timeframe of the
    registry nor, at a given timeframe, with an asset of higher
    volatility. *)
Theorem win_probability_falls_with_volatility :
  (forall (assetKey : Asset) (tf1 tf2 : Timeframe) (l u p : R),
      0 < p -> l <= p <= u -> hours tf1 < hours tf2 ->
      (calculateWinProbability assetKey (Fin l) (Fin u) (TIMEFRAMES tf2) (Fin p)
       <=? calculateWinProbability assetKey (Fin l) (Fin u) (TIMEFRAMES tf1) (Fin p))%js
      = true) /\
  (forall (asset1 asset2 : Asset) (v1 v2 h l u p : R),
      0 < h -> 0 < p -> l <= p <= u ->
      volatility (ASSETS asset1) = Fin v1 ->
      volatility (ASSETS asset2) = Fin v2 ->
      v1 <= v2 ->
      (calculateWinProbability asset2 (Fin l) (Fin u) (Fin h) (Fin p)
       <=? calculateWinProbability asset1 (Fin l) (Fin u) (Fin h) (Fin p))%js
      = true).
Proof.
  split.
  - intros a tf1 tf2 l u p Hp Hin Hh.
    destruct (registry_volatility_increasing a tf1 tf2 (Fin p) (Fin p) Hh)
      as (v1 & v2 & E1 & E2 & Hv1 & Hv2).
    rewrite (calculateWinProbability_raw a _ l u p v1 E1 Hv1 Hp).
    rewrite (calculateWinProbability_raw a _ l u p v2 E2 ltac:(lra) Hp).
    apply leb_Fin_true. apply Rle_min_compat_r.
    apply rawProbability_spread; [apply Rmult_lt_0_compat; lra | | exact Hin].
    apply Rmult_le_compat_l; lra.
  - intros a1 a2 v1 v2 h l u p Hh Hp Hin E1 E2 Hv.
    destruct (volatility_factor h Hh) as (g & Hg & Hvol).
    assert (Hv1 : 0 < v1).
    { destruct (volatility_pos a1) as (v & Ev & Hvpos).
      rewrite E1 in Ev. injection Ev as ->. exact Hvpos. }
    assert (Hvg1 : 0 < v1 * g) by (apply Rmult_lt_0_compat; assumption).
    assert (Hvg2 : 0 < v2 * g) by (apply Rmult_lt_0_compat; lra).
    rewrite (calculateWinProbability_raw a1 _ l u p _ (Hvol a1 (Fin p) v1 E1) Hvg1 Hp).
    rewrite (calculateWinProbability_raw a2 _ l u p _ (Hvol a2 (Fin p) v2 E2) Hvg2 Hp).
    apply leb_Fin_true. apply Rle_min_compat_r.
    apply rawProbability_spread; [apply Rmult_lt_0_compat; lra | | exact Hin].
    apply Rmult_le_compat_l; [lra |]. apply Rmult_le_compat_r; lra.
Qed.

Lemma win_probability_falls_with_volatility_witness :
  0 < 50000 /\ 49500 <= 50000 <= 50500 /\ hours tf_24_hour < hours tf_7_day /\
  (calculateWinProbability BTC (Fin 49500) (Fin 50500) (TIMEFRAMES tf_7_day)
                           (Fin 50000)
   <=? calculateWinProbability BTC (Fin 49500) (Fin 50500) (TIMEFRAMES tf_24_hour)
                               (Fin 50000))%js = true.
Proof.
  assert (H1 : 0 < 50000) by lra.
  assert (H2 : 49500 <= 50000 <= 50500) by lra.
  assert (H3 : hours tf_24_hour < hours tf_7_day) by (simpl; lra).
  split; [exact H1 |]. split; [exact H2 |]. split; [exact H3 |].
  exact (proj1 win_probability_falls_with_volatility
           BTC tf_24_hour tf_7_day 49500 50500 50000 H1 H2 H3).
Defined.

(** ** Removing legs *)

Lemma filter_index_keep_all {A : Type} (keep : nat -> bool) (l : list A) :
  forall k, (forall j, (k <= j)%nat -> keep j = true) -> filter_index keep k l = l.
Proof.
  induction l as [| x l IH]; intros k H; simpl; [reflexivity |].
  rewrite (H k (Nat.le_refl k)). f_equal. apply IH.
  intros j Hj. apply H. lia.
Qed.

Lemma filter_index_remove {A : Type} (l : list A) :
  forall i k,
    filter_index (fun j => negb (Nat.eqb j (i + k))) k l
    = firstn i l ++ skipn (S i) l.
Proof.
  induction l as [| x l IH]; intros i k; simpl.
  - destruct i; reflexivity.
  - destruct i as [| i]; simpl.
    + rewrite Nat.eqb_refl. simpl. apply filter_index_keep_all.
      intros j Hj. apply negb_true_iff, Nat.eqb_neq. lia.
    + replace (Nat.eqb k (S (i + k))) with false
        by (symmetry; apply Nat.eqb_neq; lia).
      simpl. f_equal.
      replace (S (i + k)) with (i + S k)%nat by lia. apply IH.
Qed.

Lemma removeLeg_legs (index : nat) (s : State) :
  legs (removeLeg index s) = firstn index (legs s) ++ skipn (S index) (legs s).
Proof.
  unfold removeLeg. cbn [legs setLegs].
  pose proof (filter_index_remove (legs s) index 0) as H.
  rewrite Nat.add_0_r in H. exact H.
Qed.

(** X10: [removeLeg index] drops exactly the leg at position [index] and
    keeps the others in order; an index past the end leaves the whole state
    as it is; the history and the error message are never touched. *)
Theorem removeLeg_drops_one :
  forall (index : nat) (s : State),
    legs (removeLeg index s)
    = firstn index (legs s) ++ skipn (S index) (legs s) /\
    ((index < List.length (legs s))%nat ->
     S (List.length (legs (removeLeg index s))) = List.length (legs s)) /\
    ((List.length (legs s) <= index)%nat -> removeLeg index s = s) /\
    history (removeLeg index s) = history s /\
    error (removeLeg index s) = error s.
Proof.
  intros index s. split; [apply removeLeg_legs |]. split; [| split].
  - intros Hlt. rewrite removeLeg_legs, length_app, length_firstn, length_skipn.
    lia.
  - intros Hge.
    assert (E : legs (removeLeg index s) = legs s).
    { rewrite removeLeg_legs, firstn_all2 by exact Hge.
      rewrite skipn_all2 by lia. apply app_nil_r. }
    unfold removeLeg in *. cbn [legs setLegs] in E. rewrite E.
    destruct s; reflexivity.
  - split; reflexivity.
Qed.

Lemma removeLeg_drops_one_witness :
  (0 < List.length (legs one_leg_state))%nat /\
  S (List.length (legs (removeLeg 0 one_leg_state)))
  = List.length (legs one_leg_state).
Proof.
  assert (H : (0 < List.length (legs one_leg_state))%nat)
    by (rewrite (proj1 one_leg_state_fields); simpl; lia).
  split; [exact H |].
  exact (proj1 (proj2 (removeLeg_drops_one 0 one_leg_state)) H).
Defined.

(** X11: removing at the position just past the current parlay undoes
    [addLeg]: the legs are those before the click, whether the leg was
    accepted or refused. *)
Theorem removeLeg_undoes_addLeg :
  forall s : State,
    legs (removeLeg (List.length (legs s)) (addLeg s)) = legs s.
Proof.
  intros s. rewrite removeLeg_legs.
  destruct (isRangeValid (lowerBound s) (upperBound s) (livePrice s)) eqn:Hv.
  - rewrite (addLeg_accepted _ Hv). cbn [legs setLegs setError].
    rewrite firstn_app, Nat.sub_diag, firstn_all, firstn_O, app_nil_r.
    rewrite skipn_all2 by (rewrite length_app; simpl; lia).
    apply app_nil_r.
  - unfold addLeg. rewrite (addLegWith_rejected _ _ Hv). cbn [legs setError].
    rewrite firstn_all, skipn_all2 by lia. apply app_nil_r.
Qed.

(** ** The ledger over runs *)

Lemma newTicket_passed_gates now iso (s : State) :
  legs s <> [] ->
  (getCombinedProb s >? Fin 0.25)%js = false ->
  (betAmount s * calculatePayoutOdds (getCombinedProb s) DEFAULT_HOUSE_EDGE
   >? TREASURY_SIZE * MAX_PAYOUT_PERCENTAGE)%js = false ->
  ticket_passed_gates (newTicket now iso s).
Proof.
  intros Hne Hp He. unfold ticket_passed_gates. cbn [newTicket Ticket.legs
    Ticket.betAmount Ticket.result Ticket.combinedPayout].
  repeat split; assumption || reflexivity.
Qed.

(** One event leaves the history alone or puts one ticket in front. *)
Lemma step_history (s : State) (e : Event) :
  history (step s e) = history s \/
  exists t, history (step s e) = t :: history s /\ ticket_passed_gates t /\
            exists now iso, e = ClickPlaceBet now iso.
Proof.
  destruct e; cbn [step]; try (left; reflexivity).
  - left. destruct (isRangeValid (lowerBound s) (upperBound s) (livePrice s)) eqn:Hv.
    + rewrite (addLeg_accepted _ Hv). reflexivity.
    + unfold addLeg. rewrite (addLegWith_rejected _ _ Hv). reflexivity.
  - destruct (placeBet_outcome now iso s)
      as [[E _] | [[E _] | [[E _] | [E (Hne & Hp & He)]]]];
      rewrite E; try (left; reflexivity).
    right. exists (newTicket now iso s). split; [reflexivity |].
    split; [apply newTicket_passed_gates; assumption |].
    exists now, iso. reflexivity.
Qed.

Lemma history_grows (events more : list Event) :
  exists newer : list Ticket.t,
    history (run (events ++ more)) = newer ++ history (run events) /\
    Forall ticket_passed_gates newer /\
    (List.length newer <= List.length (filter isPlaceBet more))%nat.
Proof.
  induction more as [| e more IH] using rev_ind.
  - exists []. rewrite app_nil_r. repeat split; [constructor | simpl; lia].
  - destruct IH as (newer & Hh & Hall & Hlen).
    rewrite app_assoc, run_snoc.
    destruct (step_history (run (events ++ more)) e)
      as [E | (t & E & Ht & now & iso & ->)].
    + exists newer. rewrite E, Hh. repeat split; [exact Hall |].
      rewrite filter_app, length_app. lia.
    + exists (t :: newer). rewrite E, Hh. repeat split.
      * constructor; assumption.
      * rewrite filter_app, length_app. simpl. lia.
Qed.

(** X12: the ledger only grows, at the front, and by at most one ticket per
    click on the Place Bet button: whatever events follow a run, the history
    afterwards is the history before with new tickets in front of it, and
    every one of them passed the gates on its own legs and stake. *)
Theorem ledger_append_only :
  forall events more : list Event,
    exists newer : list Ticket.t,
      history (run (events ++ more)) = newer ++ history (run events) /\
      Forall ticket_passed_gates newer /\
      (List.length newer <= List.length (filter isPlaceBet more))%nat.
Proof.
  intros events more.
  induction more as [| e more IH] using rev_ind.
  - exists []. rewrite app_nil_r. repeat split; [constructor | simpl; lia].
  - destruct IH as (newer & Hh & Hall & Hlen).
    rewrite app_assoc, run_snoc.
    destruct (step_history (run (events ++ more)) e)
      as [E | (t & E & Ht & now & iso & ->)].
    + exists newer. rewrite E, Hh. repeat split; [exact Hall |].
      rewrite filter_app, length_app. lia.
    + exists (t :: newer). rewrite E, Hh. repeat split.
      * constructor; assumption.
      * rewrite filter_app, length_app. simpl. lia.
Qed.

(** X13: every ticket in the ledger of any run is non-empty, has a combined
    probability not above 0.25 and a potential payout not above
    [TREASURY_SIZE * MAX_PAYOUT_PERCENTAGE], is pending, and stores the
    combined odds of its own legs. *)
Theorem ledger_tickets_passed_gates :
  forall (events : list Event) (t : Ticket.t),
    In t (history (run events)) -> ticket_passed_gates t.
Proof.
  intros events t Hin.
  destruct (history_grows [] events) as (newer & Hh & Hall & _).
  simpl in Hh. rewrite app_nil_r in Hh. rewrite Hh in Hin.
  rewrite Forall_forall in Hall. apply Hall, Hin.
Qed.

Lemma ledger_tickets_passed_gates_witness :
  In (newTicket 0 "" one_leg_state)
     (history (run (reference_events ++ [ClickPlaceBet 0 ""]))) /\
  ticket_passed_gates (newTicket 0 "" one_leg_state).
Proof.
  assert (H : In (newTicket 0 "" one_leg_state)
                 (history (run (reference_events ++ [ClickPlaceBet 0 ""])))).
  { rewrite run_snoc. fold one_leg_state. cbn [step].
    rewrite one_leg_state_accepted. left. reflexivity. }
  split; [exact H |].
  exact (ledger_tickets_passed_gates _ _ H).
Defined.

(** X14: pressing Place Bet twice in a row never records a second ticket:
    after an accepted bet the parlay is empty, and after a refused one the
    same gate refuses again. *)
Theorem placeBet_twice :
  forall (now1 now2 : Z) (iso1 iso2 : string) (s : State),
    history (placeBet now2 iso2 (placeBet now1 iso1 s))
    = history (placeBet now1 iso1 s).
Proof.
  intros now1 now2 iso1 iso2 s.
  destruct (placeBet_outcome now1 iso1 s)
    as [[E Hl] | [[E (Hne & Hp)] | [[E (Hne & Hp & He)] | [E _]]]]; rewrite E.
  - rewrite placeBet_empty by exact Hl. reflexivity.
  - rewrite placeBet_probability_cap by assumption. reflexivity.
  - rewrite placeBet_exposure_cap by assumption. reflexivity.
  - rewrite placeBet_empty by reflexivity. reflexivity.
Qed.

Lemma min_cap_id (c : num) (cap : R) :
  (c >? Fin cap)%js = false -> Math.min c (Fin cap) = c.
Proof.
  destruct c as [x | | |]; simpl; intros H; try reflexivity; try discriminate.
  apply Rltb_false in H. unfold JS.Rltb.
  destruct (Rlt_dec x cap); [reflexivity | f_equal; lra].
Qed.

(** X15: the two indicators under the parlay tell what Place Bet will do:
    a non-empty parlay is accepted exactly when the live combined
    probability is not above 0.25 and the live potential payout is not above
    [TREASURY_SIZE * MAX_PAYOUT_PERCENTAGE]. *)
Theorem indicators_agree_with_gates :
  forall (now : Z) (iso : string) (s : State),
    legs s <> [] ->
    (history (placeBet now iso s) = newTicket now iso s :: history s <->
     (liveCombinedProbability s >? Fin 0.25)%js = false /\
     (livePotentialPayout s >? TREASURY_SIZE * MAX_PAYOUT_PERCENTAGE)%js = false).
Proof.
  intros now iso s Hne. unfold liveCombinedProbability, livePotentialPayout.
  split.
  - intros H. destruct (placeBet_recorded now iso s _ H) as (_ & _ & Hp & He).
    split; [exact Hp |]. rewrite (min_cap_id _ _ Hp). exact He.
  - intros [Hp He]. rewrite (min_cap_id _ _ Hp) in He.
    rewrite (placeBet_accept now iso s Hne Hp He). reflexivity.
Qed.

Lemma indicators_agree_with_gates_witness :
  legs one_leg_state <> [] /\
  (liveCombinedProbability one_leg_state >? Fin 0.25)%js = false /\
  (livePotentialPayout one_leg_state
   >? TREASURY_SIZE * MAX_PAYOUT_PERCENTAGE)%js = false.
Proof.
  assert (Hne : legs one_leg_state <> [])
    by (rewrite (proj1 one_leg_state_fields); discriminate).
  split; [exact Hne |].
  apply (proj1 (indicators_agree_with_gates 0%Z ""%string one_leg_state Hne)).
  rewrite one_leg_state_accepted. reflexivity.
Defined.

(** X16: an empty bet-amount field ([parseFloat] gives [NaN]) passes the
    exposure gate: a non-empty parlay whose combined probability is not
    above 0.25 is accepted with a [NaN] stake. *)
Theorem nan_stake_accepted :
  forall (now : Z) (iso : string) (s : State),
    legs s <> [] ->
    (getCombinedProb s >? Fin 0.25)%js = false ->
    betAmount s = NaN ->
    exists t : Ticket.t,
      history (placeBet now iso s) = t :: history s /\
      Ticket.betAmount t = NaN.
Proof.
  intros now iso s Hne Hp Hb.
  exists (newTicket now iso s).
  rewrite (placeBet_accept now iso s Hne Hp).
  - split; [reflexivity | exact Hb].
  - rewrite Hb. reflexivity.
Qed.

Lemma nan_stake_accepted_witness :
  legs (setBetAmount NaN one_leg_state) <> [] /\
  (getCombinedProb (setBetAmount NaN one_leg_state) >? Fin 0.25)%js = false /\
  betAmount (setBetAmount NaN one_leg_state) = NaN /\
  exists t : Ticket.t,
    history (placeBet 0 "" (setBetAmount NaN one_leg_state))
    = t :: history (setBetAmount NaN one_leg_state) /\
    Ticket.betAmount t = NaN.
Proof.
  destruct one_leg_state_fields as (Hl & _ & _).
  assert (H1 : legs (setBetAmount NaN one_leg_state) <> [])
    by (cbn [legs setBetAmount]; rewrite Hl; discriminate).
  assert (H2 : (getCombinedProb (setBetAmount NaN one_leg_state)
                >? Fin 0.25)%js = false).
  { rewrite getCombinedProb_legs. cbn [legs setBetAmount].
    rewrite Hl, capped_leg_probability. apply gtb_Fin_false. lra. }
  assert (H3 : betAmount (setBetAmount NaN one_leg_state) = NaN) by reflexivity.
  split; [exact H1 |]. split; [exact H2 |]. split; [exact H3 |].
  exact (nan_stake_accepted 0%Z ""%string _ H1 H2 H3).
Defined.

(** X17: an accepted ticket whose combined probability is a positive number
    [c] never has the stake [+Infinity], and a numeric stake [b] satisfies
    [b * (0.93 / c) <= 2000]; as [c <= 0.25], no stake above 537.64 is ever
    accepted. *)
Theorem accepted_stake_bound :
  forall (now : Z) (iso : string) (s : State) (t : Ticket.t) (c : R),
    history (placeBet now iso s) = t :: history s ->
    getCombinedProb s = Fin c -> 0 < c ->
    Ticket.betAmount t <> PInf /\
    forall b : R,
      Ticket.betAmount t = Fin b -> b * (0.93 / c) <= 2000 /\ b < 537.64.
Proof.
  intros now iso s t c H Hc Hpos.
  destruct (placeBet_recorded now iso s t H) as (-> & _ & Hp & He).
  cbn [newTicket Ticket.betAmount].
  rewrite Hc in Hp, He. apply gtb_Fin_false in Hp.
  unfold DEFAULT_HOUSE_EDGE in He.
  rewrite calculatePayoutOdds_Fin, cap_value in He by lra.
  assert (Ho : 0 < 1 / c * (1 - 0.07)).
  { apply Rmult_lt_0_compat; [| lra].
    unfold Rdiv. rewrite Rmult_1_l. apply Rinv_0_lt_compat, Hpos. }
  split.
  - intros Hb. rewrite Hb in He. simpl in He.
    rewrite signed_pos in He by exact Ho. discriminate.
  - intros b Hb. rewrite Hb in He. apply gtb_Fin_false in He.
    assert (Heq : 1 / c * (1 - 0.07) = 0.93 / c) by (unfold Rdiv; lra).
    rewrite Heq in *. split; [exact He |].
    assert (Hlow : 3.72 <= 0.93 / c).
    { unfold Rdiv.
      assert (Hi : / 0.25 <= / c) by (apply Rinv_le_contravar; lra).
      lra. }
    destruct (Rle_lt_dec b 0) as [Hb0 | Hb0]; [lra |].
    assert (b * 3.72 <= b * (0.93 / c)) by (apply Rmult_le_compat_l; lra).
    lra.
Qed.

Lemma accepted_stake_bound_witness :
  history (placeBet 0 "" one_leg_state)
  = newTicket 0 "" one_leg_state :: history one_leg_state /\
  getCombinedProb one_leg_state = Fin (0.25 * 0.85 * 1.0) /\
  0 < 0.25 * 0.85 * 1.0 /\
  Ticket.betAmount (newTicket 0 "" one_leg_state) <> PInf.
Proof.
  assert (H1 : history (placeBet 0 "" one_leg_state)
               = newTicket 0 "" one_leg_state :: history one_leg_state)
    by (rewrite one_leg_state_accepted; reflexivity).
  assert (H2 : getCombinedProb one_leg_state = Fin (0.25 * 0.85 * 1.0))
    by (rewrite getCombinedProb_legs, (proj1 one_leg_state_fields);
        apply capped_leg_probability).
  assert (H3 : 0 < 0.25 * 0.85 * 1.0) by lra.
  split; [exact H1 |]. split; [exact H2 |]. split; [exact H3 |].
  exact (proj1 (accepted_stake_bound 0%Z ""%string one_leg_state _ _ H1 H2 H3)).
Defined.

(** ** More on the aggregator *)











(** X20: whenever the combined probability is greater than 0, the combined
    odds shown and stored read as a number of at least 3.72: the cap at 0.25
    bounds the odds from below by 0.93 / 0.25. *)
Theorem combined_odds_at_least :
  forall parlay : list Leg.t,
    (combinedProbability parlay >? Fin 0)%js = true ->
    exists v : R, toNumber (combinedOdds parlay) = Fin v /\ 3.72 <= v.
Proof.
  intros parlay Hpos. unfold combinedOdds, getCombinedPayout.
  change (getCombinedProb (setLegs parlay initialState))
    with (combinedProbability parlay).
  rewrite Hpos.
  assert (Hm : exists m, Math.min (combinedProbability parlay) (Fin 0.25) = Fin m
                         /\ 0 < m <= 0.25).
  { destruct (combinedProbability parlay) as [c | | |]; try discriminate.
    - apply gtb_Fin_true in Hpos. rewrite min_Fin. exists (Rmin c 0.25).
      split; [reflexivity |]. unfold Rmin. destruct (Rle_dec c 0.25); lra.
    - exists 0.25. split; [reflexivity | lra]. }
  destruct Hm as (m & -> & Hm). unfold DEFAULT_HOUSE_EDGE.
  rewrite calculatePayoutOdds_Fin by lra.
  set (o := 1 / m * (1 - 0.07)).
  assert (Ho : 3.72 <= o).
  { unfold o, Rdiv.
    assert (Hi : / 0.25 <= / m) by (apply Rinv_le_contravar; lra). lra. }
  unfold toFixed.
  rewrite (proj2 (Rltb_false o 0)) by lra. rewrite Rabs_pos_eq by lra.
  destruct (JS.Rleb (10 ^ 21) o).
  - exists o. split; [reflexivity | exact Ho].
  - eexists. split; [reflexivity |].
    assert (H100 : 10 ^ 2 = 100) by (simpl; lra).
    rewrite H100.
    destruct (base_Int_part (o * 100 + / 2)) as [_ Hgt].
    assert (Hn : (372 <= Int_part (o * 100 + / 2))%Z).
    { apply Z.lt_succ_r. apply lt_IZR. rewrite succ_IZR. lra. }
    apply IZR_le in Hn. lra.
Qed.

Lemma combined_odds_at_least_witness :
  (combinedProbability [capped_leg] >? Fin 0)%js = true /\
  exists v : R, toNumber (combinedOdds [capped_leg]) = Fin v /\ 3.72 <= v.
Proof.
  assert (H : (combinedProbability [capped_leg] >? Fin 0)%js = true)
    by (rewrite capped_leg_probability; apply gtb_Fin_true; lra).
  split; [exact H |].
  exact (combined_odds_at_least [capped_leg] H).
Defined.

(** ** The leg builder, end to end *)

Lemma timeframe_hours (tf : Timeframe) : TIMEFRAMES tf = Fin (hours tf) /\ 0 < hours tf.
Proof. destruct tf; simpl; split; try reflexivity; lra. Qed.

Lemma valid_positive_price (lo up : num) (p : R) :
  isRangeValid lo up (Fin p) = true -> 0 < p ->
  exists l u : R, lo = Fin l /\ up = Fin u /\ l < u.
Proof.
  intros Hv Hp. apply isRangeValid_numbers in Hv.
  destruct Hv as (l & u & p' & -> & -> & Ep & _ & Hlo & _).
  injection Ep as <-. exists l, u. split; [reflexivity |]. split; [reflexivity |].
  assert (Hm : (u - l) / p * p = u - l) by (field; lra).
  assert (0 < (u - l) / p * p) by (apply Rmult_lt_0_compat; lra).
  lra.
Qed.

Lemma priced_leg (assetKey : Asset) (tf : Timeframe) (l u p : R) :
  0 < p -> l < u ->
  exists r : R,
    calculateWinProbability assetKey (Fin l) (Fin u) (TIMEFRAMES tf) (Fin p) = Fin r /\
    0 <= r <= 0.25 /\
    (l <= p <= u -> 0 < r).
Proof.
  intros Hp Hlu.
  destruct (timeframe_hours tf) as (-> & Hh).
  destruct (calculateTimeScaledVolatility_pos assetKey (hours tf) (Fin p) Hh)
    as (v & Hv & Hvpos).
  rewrite (calculateWinProbability_raw assetKey _ l u p v Hv Hvpos Hp).
  assert (Hsd : 0 < p * v) by (apply Rmult_lt_0_compat; assumption).
  pose proof (rawProbability_nonneg (p * v) l u p Hsd (Rlt_le _ _ Hlu)) as H0.
  eexists. split; [reflexivity |].
  unfold Rmin. destruct (Rle_dec (rawProbability (p * v) l u p) 0.25).
  - split; [lra |]. intros Hin. apply rawProbability_contains; assumption.
  - split; [lra |]. intros _. lra.
Qed.

Lemma payoutOdds_of_probability (r : R) :
  0 <= r ->
  (0 < r -> exists o : R,
      calculatePayoutOdds (Fin r) DEFAULT_HOUSE_EDGE = Fin o /\ 0 < o) /\
  (r = 0 -> calculatePayoutOdds (Fin r) DEFAULT_HOUSE_EDGE = PInf).
Proof.
  intros Hr. unfold DEFAULT_HOUSE_EDGE. split.
  - intros Hpos. rewrite calculatePayoutOdds_Fin by lra.
    eexists. split; [reflexivity |].
    apply Rmult_lt_0_compat; [| lra].
    unfold Rdiv. rewrite Rmult_1_l. apply Rinv_0_lt_compat, Hpos.
  - intros ->. unfold calculatePayoutOdds. simpl.
    destruct (Req_dec_T 0 0) as [_ | H]; [| lra].
    rewrite signed_pos by lra. simpl. apply signed_pos. lra.
Qed.

(** X21: with a positive live price, a click on Add that passes the
    validator appends one leg, clears the error, and stores numeric bounds
    with [lower < upper], a probability [r] from 0 to 0.25 (above 0 when the
    range contains the price) and the payout odds of [r]: a positive number
    when [r > 0], and [+Infinity] when [r = 0].  The latter happens: for
    Bitcoin over one hour at price 50000, the validated bounds 60000 and
    61000 give a leg of probability 0 and infinite odds. *)
Theorem addLeg_prices_leg :
  (forall (s : State) (p : R),
      livePrice s = Fin p -> 0 < p ->
      isRangeValid (lowerBound s) (upperBound s) (livePrice s) = true ->
      exists (leg : Leg.t) (l u r : R),
        addLeg s = setLegs (legs s ++ [leg]) (setError "" s) /\
        Leg.asset leg = selectedAsset s /\ Leg.timeframe leg = timeframe s /\
        Leg.lowerBound leg = Fin l /\ Leg.upperBound leg = Fin u /\ l < u /\
        Leg.probability leg = Fin r /\ 0 <= r <= 0.25 /\
        (l <= p <= u -> 0 < r) /\
        Leg.payoutOdds leg = calculatePayoutOdds (Fin r) DEFAULT_HOUSE_EDGE /\
        (0 < r -> exists o : R, Leg.payoutOdds leg = Fin o /\ 0 < o) /\
        (r = 0 -> Leg.payoutOdds leg = PInf)) /\
  (exists leg : Leg.t,
      legs (run [PriceFetched (Fin 50000); SelectTimeframe tf_1_hour;
                 InputLowerBound (Fin 60000); InputUpperBound (Fin 61000);
                 ClickAddLeg]) = [leg] /\
      Leg.probability leg = Fin 0 /\ Leg.payoutOdds leg = PInf).
Proof.
  split.
  - intros s p Hprice Hp Hv.
    rewrite (addLeg_accepted s Hv).
    rewrite Hprice in Hv |- *.
    destruct (valid_positive_price _ _ p Hv Hp) as (l & u & El & Eu & Hlu).
    rewrite El, Eu.
    destruct (priced_leg (selectedAsset s) (timeframe s) l u p Hp Hlu)
      as (r & Er & Hr & Hin).
    rewrite Er.
    destruct (payoutOdds_of_probability r (proj1 Hr)) as [Hpos Hzero].
    eexists. exists l, u, r.
    split; [reflexivity |]. cbn [Leg.asset Leg.timeframe Leg.lowerBound
      Leg.upperBound Leg.probability Leg.payoutOdds].
    repeat split; try reflexivity; try lra; assumption.
  - unfold run. cbn [fold_left step].
    assert (Hv : isRangeValid (Fin 60000) (Fin 61000) (Fin 50000) = true).
    { apply isRangeValid_spec. exists 0.02. split; [| lra].
      change (Fin 61000 - Fin 60000)%js with (Fin (61000 + - 60000)).
      rewrite div_Fin by lra. f_equal. lra. }
    rewrite addLeg_accepted by exact Hv.
    cbn [selectedAsset timeframe lowerBound upperBound livePrice legs
         setLegs setError setUpperBound setLowerBound setLivePrice setTimeframe
         initialState app].
    rewrite far_range_probability.
    eexists. split; [reflexivity |].
    cbn [Leg.probability Leg.payoutOdds]. split; [reflexivity |].
    apply (proj2 (payoutOdds_of_probability 0 (Rle_refl 0))). reflexivity.
Qed.

Lemma addLeg_prices_leg_witness :
  livePrice one_leg_state = Fin 50000 /\ 0 < 50000 /\
  isRangeValid (lowerBound one_leg_state) (upperBound one_leg_state)
               (livePrice one_leg_state) = true /\
  exists (leg : Leg.t) (l u r : R),
    addLeg one_leg_state
    = setLegs (legs one_leg_state ++ [leg]) (setError "" one_leg_state) /\
    Leg.asset leg = selectedAsset one_leg_state /\
    Leg.timeframe leg = timeframe one_leg_state /\
    Leg.lowerBound leg = Fin l /\ Leg.upperBound leg = Fin u /\ l < u /\
    Leg.probability leg = Fin r /\ 0 <= r <= 0.25 /\
    (l <= 50000 <= u -> 0 < r) /\
    Leg.payoutOdds leg = calculatePayoutOdds (Fin r) DEFAULT_HOUSE_EDGE /\
    (0 < r -> exists o : R, Leg.payoutOdds leg = Fin o /\ 0 < o) /\
    (r = 0 -> Leg.payoutOdds leg = PInf).
Proof.
  assert (H1 : livePrice one_leg_state = Fin 50000)
    by (rewrite one_leg_state_eq; reflexivity).
  assert (H2 : 0 < 50000) by lra.
  assert (H3 : isRangeValid (lowerBound one_leg_state) (upperBound one_leg_state)
                            (livePrice one_leg_state) = true)
    by (rewrite one_leg_state_eq; apply reference_range_valid).
  split; [exact H1 |]. split; [exact H2 |]. split; [exact H3 |].
  exact (proj1 addLeg_prices_leg one_leg_state 50000 H1 H2 H3).
Defined.

(** ** Legs over runs *)

(** What holds of every leg [addLeg] builds holds of every leg a parlay or a
    ticket ever holds. *)
Lemma run_legs_invariant (P : Leg.t -> Prop) :
  (forall (s : State) (leg : Leg.t),
      isRangeValid (lowerBound s) (upperBound s) (livePrice s) = true ->
      addLeg s = setLegs (legs s ++ [leg]) (setError "" s) -> P leg) ->
  forall events : list Event,
    Forall P (legs (run events)) /\
    (forall t, In t (history (run events)) -> Forall P (Ticket.legs t)).
Proof.
  intros Hbuilt events.
  induction events as [| e events [IHl IHh]] using rev_ind.
  - split; [constructor | intros t []].
  - rewrite run_snoc.
    destruct e; cbn [step]; try (split; assumption).
    + destruct (isRangeValid (lowerBound (run events)) (upperBound (run events))
                             (livePrice (run events))) eqn:Hv.
      * pose proof (addLeg_accepted _ Hv) as E. rewrite E.
        cbn [legs history setLegs setError]. split; [| exact IHh].
        apply Forall_app. split; [exact IHl |].
        constructor; [| constructor].
        apply (Hbuilt (run events) _ Hv E).
      * unfold addLeg. rewrite (addLegWith_rejected _ _ Hv). split; assumption.
    + split; [| exact IHh]. unfold removeLeg. cbn [legs setLegs].
      apply Forall_forall. intros x Hx. rewrite Forall_forall in IHl.
      apply IHl. eapply filter_index_In, Hx.
    + destruct (placeBet_cases now iso (run events))
        as [[Hl Hh] | [Hl (t & Hh & Ht)]].
      * rewrite Hl, Hh. split; assumption.
      * rewrite Hl, Hh. split; [constructor |].
        intros t' [<- | Hin]; [rewrite Ht; exact IHl | apply IHh, Hin].
Qed.

(** X22: in every run, each leg of the parlay and of every recorded ticket
    carries the payout odds computed from its own probability at the 7%
    house edge, and a probability that is not above 0.25. *)
Theorem legs_stay_priced :
  forall events : list Event,
    Forall leg_priced (legs (run events)) /\
    (forall t, In t (history (run events)) -> Forall leg_priced (Ticket.legs t)).
Proof.
  apply run_legs_invariant.
  intros s leg Hv E. rewrite (addLeg_accepted s Hv) in E.
  apply (f_equal legs) in E. cbn [legs setLegs setError] in E.
  apply app_inv_head in E. injection E as <-.
  split; [reflexivity |].
  cbn [Leg.probability]. unfold calculateWinProbability. apply min_not_above.
Qed.

Lemma legs_stay_priced_witness :
  In (newTicket 0 "" one_leg_state)
     (history (run (reference_events ++ [ClickPlaceBet 0 ""]))) /\
  Forall leg_priced (Ticket.legs (newTicket 0 "" one_leg_state)).
Proof.
  assert (H : In (newTicket 0 "" one_leg_state)
                 (history (run (reference_events ++ [ClickPlaceBet 0 ""])))).
  { rewrite run_snoc. fold one_leg_state. cbn [step].
    rewrite one_leg_state_accepted. left. reflexivity. }
  split; [exact H |].
  exact (proj2 (legs_stay_priced (reference_events ++ [ClickPlaceBet 0 ""])) _ H).
Defined.

(** ** The range width shown under the inputs *)

(** X23: the width display.  For non-zero numeric bounds with
    [lower < upper] and a positive price, a range the validator accepts is
    shown as a two-decimal percentage between 1.00 and 30.00, within 0.005
    of [100 * (upper - lower) / price]; and a bound that is 0 or [NaN], or a
    price of 0, hides the display whatever the validator says. *)
Theorem selectedRangePercent_of_valid_range :
  (forall (s : State) (l u p : R),
      lowerBound s = Fin l -> upperBound s = Fin u -> livePrice s = Fin p ->
      l <> 0 -> u <> 0 -> l < u -> 0 < p ->
      isRangeValid (lowerBound s) (upperBound s) (livePrice s) = true ->
      exists n : Z,
        selectedRangePercent s = Some (Fixed false n 2) /\
        (100 <= n <= 3000)%Z /\
        Rabs (IZR n / 100 - (u - l) / p * 100) <= 0.005) /\
  (forall s : State,
      isFalsy (lowerBound s) = true \/ isFalsy (upperBound s) = true \/
      isZero (livePrice s) = true ->
      selectedRangePercent s = None).
Proof.
  split.
  - intros s l u p El Eu Ep Hl Hu Hlu Hp Hv.
    unfold selectedRangePercent. rewrite El, Eu, Ep in *.
    apply isRangeValid_numbers in Hv.
    destruct Hv as (l' & u' & p' & El' & Eu' & Ep' & _ & Hlo & Hhi).
    injection El' as <-. injection Eu' as <-. injection Ep' as <-.
    assert (F1 : isFalsy (Fin l) = false)
      by (simpl; destruct (Req_dec_T l 0); [contradiction | reflexivity]).
    assert (F2 : isFalsy (Fin u) = false)
      by (simpl; destruct (Req_dec_T u 0); [contradiction | reflexivity]).
    assert (F3 : isZero (Fin p) = false)
      by (simpl; destruct (Req_dec_T p 0); [lra | reflexivity]).
    rewrite F1, F2, F3, (proj2 (leb_Fin_false u l)) by exact Hlu.
    cbn [orb].
    change (Fin u - Fin l)%js with (Fin (u + - l)).
    rewrite div_Fin by lra.
    change (Fin ?a * Fin 100)%js with (Fin (a * 100)).
    replace ((u + - l) / p) with ((u - l) / p) by (unfold Rdiv; lra).
    set (x := (u - l) / p * 100).
    assert (Hx : 1 <= x <= 30) by (unfold x; lra).
    assert (H21 : 30 < 10 ^ 21) by (simpl; lra).
    assert (H100 : 10 ^ 2 = 100) by (simpl; lra).
    destruct (base_Int_part (x * 10 ^ 2 + / 2)) as [Hle Hgt].
    exists (Int_part (x * 10 ^ 2 + / 2)).
    split; [| split].
    + f_equal. apply toFixed_nonneg; lra.
    + rewrite H100 in *. split.
      * apply Z.lt_succ_r. apply lt_IZR. rewrite succ_IZR. lra.
      * apply Z.lt_succ_r. apply lt_IZR. rewrite succ_IZR. lra.
    + rewrite H100 in *. apply Rabs_le. lra.
  - intros s H. unfold selectedRangePercent.
    destruct H as [H | [H | H]]; rewrite H.
    + reflexivity.
    + rewrite orb_true_r. reflexivity.
    + rewrite orb_true_r. reflexivity.
Qed.

Lemma selectedRangePercent_of_valid_range_witness :
  exists n : Z,
    selectedRangePercent one_leg_state = Some (Fixed false n 2) /\
    (100 <= n <= 3000)%Z /\
    Rabs (IZR n / 100 - (50500 - 49500) / 50000 * 100) <= 0.005.
Proof.
  apply (proj1 selectedRangePercent_of_valid_range one_leg_state
               49500 50500 50000);
    try (rewrite one_leg_state_eq; reflexivity); try lra.
  rewrite one_leg_state_eq. apply reference_range_valid.
Defined.

(** X24: a range starting at zero can be added without its width ever being
    shown: with lower bound 0, upper bound 10 and price 100 the validator
    accepts (width 0.10) while the display is hidden; in general the
    validator accepts [0, u] at price [p > 0] whenever
    [0.01 <= u / p <= 0.30]. *)
Theorem zero_lower_bound_valid_but_hidden :
  forall (s : State) (u p : R),
    lowerBound s = Fin 0 -> upperBound s = Fin u -> livePrice s = Fin p ->
    0 < p -> 0.01 <= u / p <= 0.30 ->
    isRangeValid (lowerBound s) (upperBound s) (livePrice s) = true /\
    selectedRangePercent s = None /\
    exists leg, legs (addLeg s) = legs s ++ [leg] /\ Leg.lowerBound leg = Fin 0.
Proof.
  intros s u p El Eu Ep Hp Hw.
  assert (Hv : isRangeValid (lowerBound s) (upperBound s) (livePrice s) = true).
  { rewrite El, Eu, Ep. apply isRangeValid_numbers.
    exists 0, u, p. repeat split; try reflexivity; try lra;
      replace (u - 0) with u by lra; lra. }
  split; [exact Hv |]. split.
  - unfold selectedRangePercent. rewrite El. simpl.
    destruct (Req_dec_T 0 0); [reflexivity | lra].
  - rewrite (addLeg_accepted s Hv). cbn [legs setLegs setError].
    eexists. split; [reflexivity |]. exact El.
Qed.

Lemma zero_lower_bound_valid_but_hidden_witness :
  selectedRangePercent
    (setLivePrice (Fin 100) (setUpperBound (Fin 10) initialState)) = None /\
  isRangeValid (Fin 0) (Fin 10) (Fin 100) = true.
Proof.
  assert (Hp : 0 < 100) by lra.
  assert (Hw : 0.01 <= 10 / 100 <= 0.30) by lra.
  destruct (zero_lower_bound_valid_but_hidden
              (setLivePrice (Fin 100) (setUpperBound (Fin 10) initialState))
              10 100 eq_refl eq_refl eq_refl Hp Hw) as (Hv & Hs & _).
  split; [exact Hs | exact Hv].
Defined.

(** ** The error message over runs *)

(** X25: the error message is always empty or one of the four messages of
    the handlers, and it is empty right after a leg is accepted or a bet is
    recorded. *)
Theorem error_message_lifecycle :
  (forall events : list Event,
      error (run events) = ""%string \/
      error (run events) = RANGE_ERROR \/
      error (run events) = EMPTY_PARLAY_ERROR \/
      error (run events) = PROBABILITY_CAP_ERROR \/
      error (run events) = EXPOSURE_CAP_ERROR) /\
  (forall s : State,
      legs (addLeg s) <> legs s -> error (addLeg s) = ""%string) /\
  (forall (now : Z) (iso : string) (s : State),
      history (placeBet now iso s) <> history s ->
      error (placeBet now iso s) = ""%string /\ legs (placeBet now iso s) = []).
Proof.
  split; [| split].
  - induction events as [| e events IH] using rev_ind; [left; reflexivity |].
    rewrite run_snoc. destruct e; cbn [step]; try exact IH.
    + destruct (isRangeValid (lowerBound (run events)) (upperBound (run events))
                             (livePrice (run events))) eqn:Hv.
      * rewrite (addLeg_accepted _ Hv). left. reflexivity.
      * unfold addLeg. rewrite (addLegWith_rejected _ _ Hv). right. left. reflexivity.
    + destruct (placeBet_outcome now iso (run events))
        as [[E _] | [[E _] | [[E _] | [E _]]]]; rewrite E;
        cbn [error setError setLegs setHistory]; auto.
  - intros s Hne.
    destruct (isRangeValid (lowerBound s) (upperBound s) (livePrice s)) eqn:Hv.
    + rewrite (addLeg_accepted _ Hv). reflexivity.
    + exfalso. apply Hne. unfold addLeg.
      rewrite (addLegWith_rejected _ _ Hv). reflexivity.
  - intros now iso s Hne.
    destruct (placeBet_outcome now iso s)
      as [[E _] | [[E _] | [[E _] | [E _]]]]; rewrite E in *;
      cbn [history error legs setError setLegs setHistory] in *;
      try contradiction.
    split; reflexivity.
Qed.

Lemma error_message_lifecycle_witness :
  history (placeBet 0 "" one_leg_state) <> history one_leg_state /\
  error (placeBet 0 "" one_leg_state) = ""%string /\
  legs (placeBet 0 "" one_leg_state) = [].
Proof.
  assert (H : history (placeBet 0 "" one_leg_state) <> history one_leg_state).
  { rewrite one_leg_state_accepted. cbn [history setLegs setHistory setError].
    intros E. symmetry in E. exact (cons_neq_self _ _ E). }
  split; [exact H |].
  exact (proj2 (proj2 error_message_lifecycle) 0%Z ""%string one_leg_state H).
Defined.

(** ** A failed price request *)

(** X26: a failed price request freezes leg building: after [fetchPrice]
    fails, and as long as no new price arrives, the live price stays 0,
    every click on Add is refused, and the parlay never holds a leg it did
    not hold before (legs can still be removed, or the bet placed). *)
Theorem failed_fetch_freezes_parlay :
  forall (s : State) (events : list Event),
    forallb (fun e => negb (isPriceFetched e)) events = true ->
    livePrice (fold_left step events (fetchPrice None s)) = Fin 0 /\
    (forall leg, In leg (legs (fold_left step events (fetchPrice None s))) ->
                 In leg (legs s)) /\
    (List.length (legs (fold_left step events (fetchPrice None s)))
     <= List.length (legs s))%nat.
Proof.
  intros s events.
  induction events as [| e events IH] using rev_ind; intros Hall.
  - repeat split; [intros leg H; exact H | simpl; lia].
  - rewrite forallb_app in Hall. apply andb_true_iff in Hall.
    destruct Hall as [Hall He]. simpl in He. rewrite andb_true_r in He.
    destruct (IH Hall) as (Hp & Hin & Hlen). clear IH.
    rewrite fold_left_app. cbn [fold_left].
    set (s' := fold_left step events (fetchPrice None s)) in *.
    destruct e; cbn [step]; try (repeat split; assumption).
    + discriminate.
    + assert (Hv : isRangeValid (lowerBound s') (upperBound s') (livePrice s')
                   = false) by (rewrite Hp; apply isRangeValid_price_zero).
      unfold addLeg. rewrite (addLegWith_rejected _ _ Hv).
      repeat split; assumption.
    + split; [exact Hp |]. split.
      * intros leg H. apply Hin. unfold removeLeg in H. cbn [legs setLegs] in H.
        eapply filter_index_In, H.
      * rewrite removeLeg_legs, length_app, length_firstn, length_skipn. lia.
    + destruct (placeBet_outcome now iso s')
        as [[E _] | [[E _] | [[E _] | [E _]]]]; rewrite E;
        cbn [livePrice legs setError setLegs setHistory];
        repeat split; try assumption.
      * intros leg [].
      * simpl. lia.
Qed.

Lemma failed_fetch_freezes_parlay_witness :
  forallb (fun e => negb (isPriceFetched e))
          [InputLowerBound (Fin 99); InputUpperBound (Fin 101); ClickAddLeg] = true /\
  (List.length
     (legs (fold_left step
              [InputLowerBound (Fin 99); InputUpperBound (Fin 101); ClickAddLeg]
              (fetchPrice None one_leg_state)))
   <= List.length (legs one_leg_state))%nat.
Proof.
  assert (H : forallb (fun e => negb (isPriceFetched e))
                [InputLowerBound (Fin 99); InputUpperBound (Fin 101); ClickAddLeg]
              = true) by reflexivity.
  split; [exact H |].
  exact (proj2 (proj2 (failed_fetch_freezes_parlay one_leg_state _ H))).
Defined.

